(** * Burnell: the log-backed tenant policy store

    A shallow embedding of the tenant policy handler
    ([TenantPolicyHandler], [ReconcileTenantPlan], [updateDb],
    [UpdateTenant], [DeleteTenant], [GetTenant], [dbListener]) and of the
    function-metadata reader ([ReaderLoop], [ParseServiceRequest]).

    Conventions of the embedding:
    - a Go [int] / [time.Duration] is a [Z]; the only arithmetic the code
      performs on them (hours to nanoseconds) has its 64-bit wrap-around
      written out ([wrap64]);
    - a [time.Time] is a [Z] clock reading, the zero [time.Time{}] being [0];
      every call of [time.Now()] is an explicit argument of the function
      that makes it;
    - a Go [map[string]T] is a [gmap string T];
    - a Go [(value, error)] result is the pair [(value, option error)], since
      [UpdateTenant] uses the value of [GetTenant] while dropping its error;
    - what the broker and the JSON library answer (producer outcome, reader
      events, what [json.Unmarshal] leaves in the record) is an explicit
      argument. *)

From Stdlib Require Import ZArith List Lia.
From stdpp Require Import base decidable option list strings gmap fin_maps relations.

Local Open Scope Z_scope.
Local Open Scope string_scope.

(** ** Document model *)

(** [time.Time]: a clock reading; [0] is the zero value [time.Time{}]. *)
Definition Time := Z.

(** A Go [error] value, identified with its message. *)
Definition error := string.

(** Modelled from the spec: the declaration of [TenantStatus] is not among
    the sources.  The code names [Reserved0] (the zero value, compared
    against in [takeTenantStatus]), [Activated] and [Deleted]; the data model
    lists Unset, Activated, Deactivated, Deleted and further values. *)
Inductive TenantStatus : Type :=
  | Reserved0
  | Activated
  | Deactivated
  | Deleted
  | OtherStatus (code : nat).

#[global] Instance TenantStatus_eq_dec : EqDecision TenantStatus.
Proof. solve_decision. Defined.

(** Modelled from the spec: the declaration of [PlanPolicy] is not among the
    sources; the fields are those [ReconcileTenantPlan] reads and writes.
    [PolicyName] is the Go field [Policy.Name]. *)
Record PlanPolicy : Type := mkPlanPolicy {
  PolicyName : string;
  NumOfTopics : Z;
  NumOfNamespaces : Z;
  MessageHourRetention : Z;
  MessageRetention : Z;
  NumOfProducers : Z;
  NumOfConsumers : Z;
  Functions : Z;
  FeatureCodes : string
}.

#[global] Instance PlanPolicy_eq_dec : EqDecision PlanPolicy.
Proof. solve_decision. Defined.

(** Modelled from the spec: the declaration of [TenantPlan] is not among the
    sources; the fields are those the handler reads and writes.  [Status] is
    the Go field [TenantStatus]. *)
Record TenantPlan : Type := mkTenantPlan {
  Name : string;
  Status : TenantStatus;
  Org : string;
  Users : string;
  PlanType : string;
  UpdatedAt : Time;
  Policy : PlanPolicy;
  Audit : string
}.

#[global] Instance TenantPlan_eq_dec : EqDecision TenantPlan.
Proof. solve_decision. Defined.

(** [PlanPolicy{}] and [TenantPlan{}]. *)
Definition emptyPolicy : PlanPolicy := mkPlanPolicy "" 0 0 0 0 0 0 0 "".
Definition emptyPlan : TenantPlan :=
  mkTenantPlan "" Reserved0 "" "" "" 0 emptyPolicy "".

(** Field assignments [p.F = v] on a struct held by value. *)
Definition set_Name (v : string) (p : TenantPlan) : TenantPlan :=
  mkTenantPlan v (Status p) (Org p) (Users p) (PlanType p) (UpdatedAt p) (Policy p) (Audit p).
Definition set_Status (v : TenantStatus) (p : TenantPlan) : TenantPlan :=
  mkTenantPlan (Name p) v (Org p) (Users p) (PlanType p) (UpdatedAt p) (Policy p) (Audit p).
Definition set_Org (v : string) (p : TenantPlan) : TenantPlan :=
  mkTenantPlan (Name p) (Status p) v (Users p) (PlanType p) (UpdatedAt p) (Policy p) (Audit p).
Definition set_Users (v : string) (p : TenantPlan) : TenantPlan :=
  mkTenantPlan (Name p) (Status p) (Org p) v (PlanType p) (UpdatedAt p) (Policy p) (Audit p).
Definition set_UpdatedAt (v : Time) (p : TenantPlan) : TenantPlan :=
  mkTenantPlan (Name p) (Status p) (Org p) (Users p) (PlanType p) v (Policy p) (Audit p).
Definition set_Policy (v : PlanPolicy) (p : TenantPlan) : TenantPlan :=
  mkTenantPlan (Name p) (Status p) (Org p) (Users p) (PlanType p) (UpdatedAt p) v (Audit p).
Definition set_Audit (v : string) (p : TenantPlan) : TenantPlan :=
  mkTenantPlan (Name p) (Status p) (Org p) (Users p) (PlanType p) (UpdatedAt p) (Policy p) v.

(** Wrap-around of a 64-bit signed integer. *)
Definition wrap64 (z : Z) : Z := (z + 2 ^ 63) mod 2 ^ 64 - 2 ^ 63.

(** [time.Hour], in nanoseconds. *)
Definition Hour : Z := 3600000000000.

(** ** Reconciliation engine *)

Definition takeNonZero (a b : Z) : Z :=
  if decide (a = 0) then b else a.

Definition takeTenantStatus (a b : TenantStatus) : TenantStatus :=
  if decide (a = Reserved0) then b else a.

(** Modelled from the spec: [util.AssignString] is not among the sources.
    It is variadic and returns its first non-empty argument (the requested
    string if non-empty, else the inherited one), the empty string when there
    is none. *)
Fixpoint AssignString (values : list string) : string :=
  match values with
  | [] => ""
  | v :: rest => if decide (v = "") then AssignString rest else v
  end.

(** The update branch's assignments to [reqPlan.Policy], in source order. *)
Definition mergePolicy (req existing : PlanPolicy) : PlanPolicy :=
  let hours :=
    if decide (MessageHourRetention req = 0)
    then MessageHourRetention existing
    else MessageHourRetention req in
  {| PolicyName := AssignString [PolicyName req; PolicyName existing];
     NumOfTopics := takeNonZero (NumOfTopics req) (NumOfTopics existing);
     NumOfNamespaces := takeNonZero (NumOfNamespaces req) (NumOfNamespaces existing);
     MessageHourRetention := hours;
     MessageRetention := wrap64 (hours * Hour);
     NumOfProducers := takeNonZero (NumOfProducers req) (NumOfProducers existing);
     NumOfConsumers := takeNonZero (NumOfConsumers req) (NumOfConsumers existing);
     Functions := takeNonZero (Functions req) (Functions existing);
     FeatureCodes := AssignString [FeatureCodes req; FeatureCodes existing] |}.

Section Reconcile.

(** [strings.ToLower] and the plan table lookup [getPlanPolicy] (not among
    the sources; [None] is the nil pointer it returns for an unknown plan
    type). *)
Variable ToLower : string → string.
Variable getPlanPolicy : string → option PlanPolicy.

(** [now] is the reading of [time.Now()] on entry. *)
Definition ReconcileTenantPlan (now : Time) (reqPlan existingPlan : TenantPlan)
  : TenantPlan * option error :=
  let reqPlan := set_UpdatedAt now reqPlan in
  match getPlanPolicy (ToLower (PlanType reqPlan)) with
  | None => (emptyPlan, Some "a valid plan type is missing")
  | Some reqPlanPolicy =>
    if decide (emptyPlan = existingPlan) then
      (* this is new creation *)
      let reqPlan :=
        if decide (Audit reqPlan = "")
        then set_Audit "initial creation," reqPlan else reqPlan in
      let reqPlan :=
        if decide (Policy reqPlan = emptyPolicy)
        then set_Policy reqPlanPolicy reqPlan else reqPlan in
      let reqPlan :=
        set_Status (takeTenantStatus (Status reqPlan) Activated) reqPlan in
      (reqPlan, None)
    else
      let reqPlan :=
        set_Policy (mergePolicy (Policy reqPlan) (Policy existingPlan)) reqPlan in
      let reqPlan :=
        set_Status (takeTenantStatus (Status reqPlan) (Status existingPlan)) reqPlan in
      let reqPlan := set_Org (AssignString [Org reqPlan; Org existingPlan]) reqPlan in
      let reqPlan := set_Users (AssignString [Users reqPlan; Users existingPlan]) reqPlan in
      let reqPlan := set_Audit (Audit existingPlan +:+ "," +:+ Audit reqPlan) reqPlan in
      (reqPlan, None)
  end.

End Reconcile.

(** ** The tenant policy handler *)

(** The handler's mutable state: the [tenants] map, and the entries this
    handler's producers have appended to the topic [topicName] (the payload
    of an entry is the JSON of a [TenantPlan]; it is recorded here as the
    plan that was marshalled). *)
Record TenantPolicyHandler : Type := mkHandler {
  tenants : gmap string TenantPlan;
  topic : list TenantPlan
}.

(** [Setup]: [s.tenants = make(map[string]TenantPlan)]. *)
Definition Setup : TenantPolicyHandler := mkHandler ∅ [].

(** What the broker and the JSON encoder answer during one [updateDb]:
    [CreateProducer] fails, [json.Marshal] fails, [producer.Send] fails, or
    the send is acknowledged. *)
Inductive ProducerOutcome : Type :=
  | CreateProducerFails (e : error)
  | MarshalFails (e : error)
  | SendFails (e : error)
  | SendAcked.

Definition StatusOK : Z := 200.
Definition StatusUnprocessableEntity : Z := 422.
Definition StatusInternalServerError : Z := 500.

Definition GetTenant (tenantName : string) (s : TenantPolicyHandler)
  : TenantPlan * option error :=
  match tenants s !! tenantName with
  | Some t => (t, None)
  | None => (emptyPlan, Some "not found")
  end.

(** [now] is the reading of [time.Now()] made after the producer exists. *)
Definition updateDb (now : Time) (outcome : ProducerOutcome)
    (tenantPlan : TenantPlan) (s : TenantPolicyHandler)
  : (TenantPlan * option error) * TenantPolicyHandler :=
  match outcome with
  | CreateProducerFails e => ((emptyPlan, Some e), s)
  | MarshalFails e => ((emptyPlan, Some e), s)
  | SendFails e => ((emptyPlan, Some e), s)
  | SendAcked =>
    let tenantPlan := set_UpdatedAt now tenantPlan in
    ((tenantPlan, None),
     {| tenants := <[Name tenantPlan := tenantPlan]> (tenants s);
        topic := topic s ++ [tenantPlan] |})
  end.

(** [DeleteTenant]; the state between [updateDb] and the final [delete] is
    the second component of the [updateDb] call. *)
Definition DeleteTenant (now : Time) (outcome : ProducerOutcome)
    (tenantName : string) (s : TenantPolicyHandler)
  : (TenantPlan * option error) * TenantPolicyHandler :=
  match tenants s !! tenantName with
  | None => ((emptyPlan, Some "not found"), s)
  | Some t =>
    let t := set_Status Deleted t in
    let '((_, err), s1) := updateDb now outcome t s in
    match err with
    | Some e => ((emptyPlan, Some e), s1)
    | None =>
      ((t, None), {| tenants := delete tenantName (tenants s1); topic := topic s1 |})
    end
  end.

Section Writer.

Variable ToLower : string → string.
Variable getPlanPolicy : string → option PlanPolicy.

(** [nowReconcile] and [nowWrite] are the two readings of [time.Now()], in
    [ReconcileTenantPlan] and in [updateDb]. *)
Definition UpdateTenant (nowReconcile nowWrite : Time) (outcome : ProducerOutcome)
    (tenantName : string) (tenantPlan : TenantPlan) (s : TenantPolicyHandler)
  : (TenantPlan * Z * option error) * TenantPolicyHandler :=
  let '(existingTenant, _) := GetTenant tenantName s in
  let tenantPlan := set_Name tenantName tenantPlan in
  let '(newPlan, err) :=
    ReconcileTenantPlan ToLower getPlanPolicy nowReconcile tenantPlan existingTenant in
  match err with
  | Some e => ((emptyPlan, StatusUnprocessableEntity, Some e), s)
  | None =>
    let '((updatedPlan, err), s') := updateDb nowWrite outcome newPlan s in
    match err with
    | Some e => ((emptyPlan, StatusInternalServerError, Some e), s')
    | None => ((updatedPlan, StatusOK, None), s')
    end
  end.

End Writer.

(** ** The consumer loop *)

(** One answer of [reader.Next]: an error, or a message, given by what
    [json.Unmarshal(data.Payload(), &t)] leaves in [t] (starting from
    [TenantPlan{}]) and the error it returns. *)
Inductive ReaderEvent : Type :=
  | NextFails (e : error)
  | NextMessage (t : TenantPlan) (unmarshalErr : option error).

(** How a run of the listener stands once the given events are consumed:
    blocked in [reader.Next], or returned with an error, in which case the
    deferred function has sent the [liveSignal]. *)
Inductive ListenerStatus : Type :=
  | AwaitingNext
  | Terminated (e : error).

(** The locked section of the loop body. *)
Definition applyEntry (t : TenantPlan) (m : gmap string TenantPlan)
  : gmap string TenantPlan :=
  if decide (Status t ≠ Deleted) then <[Name t := t]> m else delete (Name t) m.

(** The [for] loop of [dbListener]: an unmarshal error is logged and the
    body goes on with [t] as it is. *)
Fixpoint listenLoop (events : list ReaderEvent) (m : gmap string TenantPlan)
  : gmap string TenantPlan * ListenerStatus :=
  match events with
  | [] => (m, AwaitingNext)
  | NextFails e :: _ => (m, Terminated e)
  | NextMessage t _ :: rest => listenLoop rest (applyEntry t m)
  end.

Definition dbListener (createReaderErr : option error) (events : list ReaderEvent)
    (s : TenantPolicyHandler) : TenantPolicyHandler * ListenerStatus :=
  match createReaderErr with
  | Some e => (s, Terminated e)
  | None =>
    let '(m, st) := listenLoop events (tenants s) in
    ({| tenants := m; topic := topic s |}, st)
  end.

(** The watchdog of [Setup] relaunches [dbListener] on every signal; each
    launch reads the topic again from the earliest message, over the same
    [s.tenants].  [replays n] is the state after [n] launches over the same
    events. *)
Fixpoint replays (n : nat) (events : list ReaderEvent) (s : TenantPolicyHandler)
  : TenantPolicyHandler :=
  match n with
  | O => s
  | S n' => replays n' events (fst (dbListener None events s))
  end.

(** The messages a consumer of the topic receives for the entries appended
    by [updateDb], the JSON encoding taken to be lossless. *)
Definition delivered (entries : list TenantPlan) : list ReaderEvent :=
  map (λ t, NextMessage t None) entries.

(** The critical sections that write [s.tenants], one constructor per
    [Lock]/[Unlock] pair of the source; any interleaving of the public
    operations is a sequence of these. *)
Inductive cache_step : relation (gmap string TenantPlan) :=
  | step_updateDb (tenantPlan : TenantPlan) m :
      cache_step m (<[Name tenantPlan := tenantPlan]> m)
  | step_DeleteTenant (tenantName : string) m :
      cache_step m (delete tenantName m)
  | step_dbListener (t : TenantPlan) m :
      cache_step m (applyEntry t m).

(** Every key of the cache holds a record of that name. *)
Definition key_name_coherent (m : gmap string TenantPlan) : Prop :=
  ∀ k t, m !! k = Some t → Name t = k.

(** No record of the cache is a tombstone. *)
Definition no_tombstone (m : gmap string TenantPlan) : Prop :=
  ∀ k t, m !! k = Some t → Status t ≠ Deleted.

(** ** The function-metadata reader *)

(** Modelled from the spec: the generated protobuf package [pb] is not among
    the sources.  A message pointer is an [option] ([None] is nil); the
    fields are those [ParseServiceRequest] reads.  [InputSpecs] is the list
    of keys of the Go map, in the order the [range] statement visits them
    (an order the Go runtime does not fix). *)
Module pb.

Inductive ServiceRequest_ServiceRequestType : Type :=
  | ServiceRequest_DELETE
  | ServiceRequest_OTHER (code : nat).

Record SourceSpec : Type := mkSourceSpec {
  TopicsPattern : string;
  InputSpecs : list string
}.

Record SinkSpec : Type := mkSinkSpec { Topic : string }.

Record FunctionDetailsMsg : Type := mkFunctionDetails {
  Tenant : string;
  Namespace : string;
  Name : string;
  LogTopic : string;
  AutoAck : bool;
  Parallelism : Z;
  Source : option SourceSpec;
  Sink : option SinkSpec
}.

Record FunctionMetaData : Type := mkFunctionMetaData {
  FunctionDetails : option FunctionDetailsMsg
}.

(** The values the getters of a [ServiceRequest] return. *)
Record ServiceRequest : Type := mkServiceRequest {
  GetFunctionMetaData : option FunctionMetaData;
  GetWorkerId : string;
  GetServiceRequestType : ServiceRequest_ServiceRequestType
}.

#[global] Instance ServiceRequestType_eq_dec :
  EqDecision ServiceRequest_ServiceRequestType.
Proof. solve_decision. Defined.

(** Getters are nil-safe: on a nil receiver they return the zero value. *)
Definition GetTenant (fd : option FunctionDetailsMsg) : string :=
  from_option Tenant "" fd.
Definition GetNamespace (fd : option FunctionDetailsMsg) : string :=
  from_option Namespace "" fd.
Definition GetName (fd : option FunctionDetailsMsg) : string :=
  from_option Name "" fd.
Definition GetLogTopic (fd : option FunctionDetailsMsg) : string :=
  from_option LogTopic "" fd.
Definition GetAutoAck (fd : option FunctionDetailsMsg) : bool :=
  from_option AutoAck false fd.
Definition GetParallelism (fd : option FunctionDetailsMsg) : Z :=
  from_option Parallelism 0 fd.
Definition GetTopicsPattern (src : option SourceSpec) : string :=
  from_option TopicsPattern "" src.

End pb.

Record FunctionType : Type := mkFunctionType {
  Tenant : string;
  Namespace : string;
  FunctionName : string;
  FunctionWorkerID : string;
  InputTopics : list string;
  InputTopicRegex : string;
  SinkTopic : string;
  LogTopic : string;
  AutoAck : bool;
  Parallism : Z
}.

(** The accessors of the function map and [ParseServiceRequest], over a map
    that has been made (as [ReaderLoop] does before it reads anything).  The
    same functions over the variable of the package, which is nil before
    that, are in the module [logclient] below. *)
Definition ReadFunctionMap (key : string) (functionMap : gmap string FunctionType)
  : option FunctionType := functionMap !! key.

Definition WriteFunctionMap (key : string) (f : FunctionType)
    (functionMap : gmap string FunctionType) : gmap string FunctionType :=
  <[key := f]> functionMap.

Definition DeleteFunctionMap (key : string) (functionMap : gmap string FunctionType)
  : bool * gmap string FunctionType :=
  match functionMap !! key with
  | Some _ => (true, delete key functionMap)
  | None => (false, functionMap)
  end.

(** [ParseServiceRequest]; [None] is the nil-pointer panic of a field read
    through a nil [sr], [fd], [fd.Source] or [fd.Sink]. *)
Definition ParseServiceRequest (sr : option pb.FunctionMetaData) (workerID : string)
    (serviceType : pb.ServiceRequest_ServiceRequestType)
    (functionMap : gmap string FunctionType) : option (gmap string FunctionType) :=
  md ← sr;
  let fd := pb.FunctionDetails md in
  let key := pb.GetTenant fd +:+ pb.GetNamespace fd +:+ pb.GetName fd in
  if decide (serviceType = pb.ServiceRequest_DELETE) then
    Some (snd (DeleteFunctionMap key functionMap))
  else
    d ← fd;
    sink ← pb.Sink d;
    src ← pb.Source d;
    let f :=
      {| Tenant := pb.GetTenant fd;
         Namespace := pb.GetNamespace fd;
         FunctionName := pb.GetName fd;
         FunctionWorkerID := workerID;
         InputTopics :=
           pb.InputSpecs src ++
           (if decide (0 < String.length (pb.TopicsPattern src))%nat
            then [pb.TopicsPattern src] else []);
         InputTopicRegex := pb.GetTopicsPattern (pb.Source d);
         SinkTopic := pb.Topic sink;
         LogTopic := pb.GetLogTopic fd;
         AutoAck := pb.GetAutoAck fd;
         Parallism := pb.GetParallelism fd |} in
    Some (WriteFunctionMap key f functionMap).

(** One answer of the metadata reader's [Next]: an error, or a message given
    by what [proto.Unmarshal] leaves in [sr]; the error [proto.Unmarshal]
    returns is dropped by the source, so it is recorded only for reference. *)
Inductive MetadataEvent : Type :=
  | MetadataNextFails (e : error)
  | MetadataMessage (sr : pb.ServiceRequest) (unmarshalErr : option error).

Inductive ReaderStatus : Type :=
  | ReaderAwaitingNext
  | ReaderReturned
  | ReaderPanicked.

Fixpoint readerBody (events : list MetadataEvent) (functionMap : gmap string FunctionType)
  : gmap string FunctionType * ReaderStatus :=
  match events with
  | [] => (functionMap, ReaderAwaitingNext)
  | MetadataNextFails _ :: _ => (functionMap, ReaderReturned)
  | MetadataMessage sr _ :: rest =>
    match ParseServiceRequest (pb.GetFunctionMetaData sr) (pb.GetWorkerId sr)
            (pb.GetServiceRequestType sr) functionMap with
    | Some functionMap' => readerBody rest functionMap'
    | None => (functionMap, ReaderPanicked)
    end
  end.

(** [ReaderLoop]: the package-level [functionMap] is replaced by a fresh map
    before anything else, whatever it held. *)
Definition ReaderLoop (newClientErr createReaderErr : option error)
    (events : list MetadataEvent) (functionMap : gmap string FunctionType)
  : gmap string FunctionType * ReaderStatus :=
  let functionMap : gmap string FunctionType := ∅ in
  match newClientErr, createReaderErr with
  | Some _, _ => (functionMap, ReaderReturned)
  | None, Some _ => (functionMap, ReaderReturned)
  | None, None => readerBody events functionMap
  end.

(** ** A concrete environment for worked examples *)

(** [strings.ToLower] on ASCII letters (all that the examples use). *)
Definition lowerAscii (c : Ascii.ascii) : Ascii.ascii :=
  let n := Ascii.N_of_ascii c in
  if ((65 <=? n) && (n <=? 90))%N then Ascii.ascii_of_N (n + 32) else c.

Fixpoint lowerString (s : string) : string :=
  match s with
  | EmptyString => EmptyString
  | String c rest => String (lowerAscii c) (lowerString rest)
  end.

(** A plan table with a single class, for the examples only: the table of
    the repository is not among the sources. *)
Definition freePlan : PlanPolicy :=
  {| PolicyName := "free";
     NumOfTopics := 5;
     NumOfNamespaces := 1;
     MessageHourRetention := 48;
     MessageRetention := 48 * Hour;
     NumOfProducers := 3;
     NumOfConsumers := 5;
     Functions := 1;
     FeatureCodes := "" |}.

Definition samplePlans (plan : string) : option PlanPolicy :=
  if decide (plan = "free") then Some freePlan else None.

(** The requests of the worked examples. *)
Definition request (planType audit : string) (st : TenantStatus) (topics : Z)
  : TenantPlan :=
  {| Name := ""; Status := st; Org := ""; Users := ""; PlanType := planType;
     UpdatedAt := 0;
     Policy := mkPlanPolicy "" topics 0 0 0 0 0 0 "";
     Audit := audit |}.

(** ** Views of the code used to state the properties *)

(** The error [updateDb] returns for an outcome of the append, if any. *)
Definition appendError (outcome : ProducerOutcome) : option error :=
  match outcome with
  | CreateProducerFails e | MarshalFails e | SendFails e => Some e
  | SendAcked => None
  end.

(** The records a run of the listener applies: those of the messages that
    come before the first failure of [reader.Next]. *)
Fixpoint applied (events : list ReaderEvent) : list TenantPlan :=
  match events with
  | [] => []
  | NextFails _ :: _ => []
  | NextMessage t _ :: rest => t :: applied rest
  end.

(** A keyed write: [Some v] stores [v] under the key, [None] deletes it. *)
Definition applyWrite {V : Type} (w : string * option V) (m : gmap string V)
  : gmap string V :=
  partial_alter (λ _, w.2) w.1 m.

Definition applyWrites {V : Type} (ws : list (string * option V)) (m : gmap string V)
  : gmap string V :=
  foldl (λ m w, applyWrite w m) m ws.

(** The write [applyEntry] performs for a record. *)
Definition entryWrite (t : TenantPlan) : string * option TenantPlan :=
  (Name t, if decide (Status t ≠ Deleted) then Some t else None).

(** The write [ParseServiceRequest] performs for a request, read off its
    effect on the empty map; [None] when it panics. *)
Definition metadataWrite (sr : pb.ServiceRequest) : option (string * option FunctionType) :=
  let fd := md ← pb.GetFunctionMetaData sr; pb.FunctionDetails md in
  let key := pb.GetTenant fd +:+ pb.GetNamespace fd +:+ pb.GetName fd in
  m ← ParseServiceRequest (pb.GetFunctionMetaData sr) (pb.GetWorkerId sr)
         (pb.GetServiceRequestType sr) ∅;
  Some (key, m !! key).

(** The requests a run of the metadata reader applies: those that come
    before the first failure of [Next] and the first panic. *)
Fixpoint metadataWrites (events : list MetadataEvent)
  : list (string * option FunctionType) :=
  match events with
  | [] => []
  | MetadataNextFails _ :: _ => []
  | MetadataMessage sr _ :: rest =>
    match metadataWrite sr with
    | Some w => w :: metadataWrites rest
    | None => []
    end
  end.

(** ** Sequences of writer calls *)

(** One call of the writer path, with the clock readings and the answer of
    the broker it meets. *)
Inductive WriteOp : Type :=
  | OpUpdate (nowReconcile nowWrite : Time) (outcome : ProducerOutcome)
      (tenantName : string) (tenantPlan : TenantPlan)
  | OpDelete (now : Time) (outcome : ProducerOutcome) (tenantName : string).

Section WriterRuns.

Variable ToLower : string → string.
Variable getPlanPolicy : string → option PlanPolicy.

(** The state a call leaves. *)
Definition runOp (op : WriteOp) (s : TenantPolicyHandler) : TenantPolicyHandler :=
  match op with
  | OpUpdate nowR nowW outcome K R =>
    snd (UpdateTenant ToLower getPlanPolicy nowR nowW outcome K R s)
  | OpDelete now outcome K => snd (DeleteTenant now outcome K s)
  end.

(** The state a sequence of calls, one after the other, leaves. *)
Definition runOps (ops : list WriteOp) (s : TenantPolicyHandler) : TenantPolicyHandler :=
  foldl (λ s op, runOp op s) s ops.

End WriterRuns.

(** The request of an [UpdateTenant] call does not ask for [Deleted]. *)
Definition requestsNoTombstone (op : WriteOp) : Prop :=
  match op with
  | OpUpdate _ _ _ _ R => Status R ≠ Deleted
  | OpDelete _ _ _ => True
  end.

(** ** [Setup]: the client options *)

(** The fields of [util.GetConfig()] that [Setup] reads. *)
Record Config : Type := mkConfig {
  PulsarURL : string;
  TenantManagmentTopic : string;
  PulsarToken : string;
  TrustStore : string
}.

(** The fields of [pulsar.ClientOptions] that [Setup] sets; durations in
    nanoseconds, [Authentication] the token given to
    [pulsar.NewAuthenticationToken] if any. *)
Record ClientOptions : Type := mkClientOptions {
  URL : string;
  OperationTimeout : Z;
  ConnectionTimeout : Z;
  Authentication : option string;
  TLSTrustCertsFilePath : string
}.

(** [time.Second], in nanoseconds. *)
Definition Second : Z := 1000000000.

(** What a call of [Setup] has done when it returns: the error returned,
    the topic name stored, the options [pulsar.NewClient] was called with if
    it was called, and whether the watchdog with its listener was started. *)
Record SetupRun : Type := mkSetupRun {
  setupError : option error;
  topicName : string;
  newClientCall : option ClientOptions;
  listenerStarted : bool
}.

(** [Setup], up to the launch of the watchdog; [newClientErr] is the error
    [pulsar.NewClient] answers with, if any. *)
Definition Setup_run (cfg : Config) (newClientErr : option error) : SetupRun :=
  let pulsarURL := PulsarURL cfg in
  let topicName :=
    AssignString [TenantManagmentTopic cfg;
                  "persistent://public/default/tenants-management"] in
  let tokenStr := PulsarToken cfg in
  let authentication := if decide (tokenStr ≠ "") then Some tokenStr else None in
  let clientOpt trust :=
    {| URL := pulsarURL;
       OperationTimeout := 30 * Second;
       ConnectionTimeout := 30 * Second;
       Authentication := authentication;
       TLSTrustCertsFilePath := trust |} in
  let finish opt :=
    match newClientErr with
    | Some err => mkSetupRun (Some err) topicName (Some opt) false
    | None => mkSetupRun None topicName (Some opt) true
    end in
  if String.prefix "pulsar+ssl://" pulsarURL then
    let trustStore := TrustStore cfg in
    if decide (trustStore = "") then
      mkSetupRun
        (Some "this is fatal that we are missing trustStore while pulsar+ssl is required")
        topicName None false
    else finish (clientOpt trustStore)
  else finish (clientOpt "").

(** ** Function logs *)

(** Modelled from the spec: the generated package [logstream] is not among
    the sources; the fields are those [GetFunctionLog] sets and reads. *)
Module logstream.

Inductive ReadRequest_Direction : Type :=
  | ReadRequest_FORWARD
  | ReadRequest_BACKWARD.

Record ReadRequest : Type := mkReadRequest {
  File : string;
  Direction : ReadRequest_Direction;
  Bytes : Z
}.

Record ReadResponse : Type := mkReadResponse {
  GetLogs : string;
  GetBackwardIndex : Z;
  GetForwardIndex : Z
}.

End logstream.

Record FunctionLogResponse : Type := mkFunctionLogResponse {
  Logs : string;
  BackwardPosition : Z;
  ForwardPosition : Z
}.

(** How a call ends: it returns, or the process exits ([log.Fatalf]). *)
Inductive CallOutcome (A : Type) : Type :=
  | Returned (a : A)
  | ProcessExited.
Arguments Returned {A} a.
Arguments ProcessExited {A}.

Section FunctionLog.

(** [strings.TrimSpace]; the constant [logstream.LogServerPort] and the
    function [logstream.FunctionLogPath], not among the sources; what
    [grpc.Dial] answers for an address, and what the log server at an
    address answers to a read request. *)
Variable TrimSpace : string → string.
Variable LogServerPort : string.
Variable FunctionLogPath : string → string → string → Z → string.
Variable Dial : string → option error.
Variable Read : string → logstream.ReadRequest → logstream.ReadResponse + error.

Definition requestDirection (r : string) : logstream.ReadRequest_Direction :=
  if decide (TrimSpace r = "forward")
  then logstream.ReadRequest_FORWARD
  else logstream.ReadRequest_BACKWARD.

Definition GetFunctionLog (functionName rd : string)
    (functionMap : gmap string FunctionType)
  : CallOutcome (FunctionLogResponse * option error) :=
  match ReadFunctionMap functionName functionMap with
  | None => Returned (mkFunctionLogResponse "" 0 0, Some "not found")
  | Some function =>
    let address := FunctionWorkerID function +:+ LogServerPort in
    let address := LogServerPort in
    match Dial address with
    | Some err => Returned (mkFunctionLogResponse "" 0 0, Some err)
    | None =>
      let req :=
        {| logstream.File :=
             FunctionLogPath (Tenant function) (Namespace function)
               (FunctionName function) 0;
           logstream.Direction := requestDirection rd;
           logstream.Bytes := 500 |} in
      match Read address req with
      | inr err => ProcessExited
      | inl res =>
        Returned
          ({| Logs := logstream.GetLogs res;
              BackwardPosition := logstream.GetBackwardIndex res;
              ForwardPosition := logstream.GetForwardIndex res |}, None)
      end
    end
  end.

End FunctionLog.

(** ** The authentication middleware *)

(** The part of an [http.Request] the middleware reads and writes: the
    header, a map from canonical keys to lists of values, and the route
    variables of [mux.Vars]. *)
Record Request : Type := mkRequest {
  Header : gmap string (list string);
  Vars : gmap string string
}.

(** What a middleware does with a request: it calls [next.ServeHTTP] on the
    request as it then is, or answers with [http.Error]. *)
Inductive HandlerResult : Type :=
  | ServeNext (r : Request)
  | HttpError (body : string) (code : Z).

Definition StatusUnauthorized : Z := 401.

Section Middleware.

(** [textproto.CanonicalMIMEHeaderKey], [strings.TrimSpace] and
    [strings.Replace]; the constants [injectedSubs], [util.DummySuperRole]
    and [util.SuperRoles], and the functions [util.StrContains] and
    [VerifySubject], not among the sources; the answers of
    [util.IsPulsarJWTEnabled] and [util.JWTAuth.GetTokenSubject]. *)
Variable CanonicalMIMEHeaderKey : string → string.
Variable TrimSpace : string → string.
Variable Replace : string → string → string → Z → string.
Variable injectedSubs : string.
Variable DummySuperRole : string.
Variable SuperRoles : list string.
Variable StrContains : list string → string → bool.
Variable VerifySubject : string → string → bool.
Variable IsPulsarJWTEnabled : bool.
Variable GetTokenSubject : string → string * option error.

(** [h.Get(key)] and [h.Set(key, value)] of [http.Header]. *)
Definition Header_Get (key : string) (h : gmap string (list string)) : string :=
  match h !! CanonicalMIMEHeaderKey key with
  | Some (v :: _) => v
  | _ => ""
  end.

Definition Header_Set (key value : string) (h : gmap string (list string))
  : gmap string (list string) :=
  <[CanonicalMIMEHeaderKey key := [value]]> h.

Definition setSubjects (value : string) (r : Request) : Request :=
  {| Header := Header_Set injectedSubs value (Header r); Vars := Vars r |}.

(** The expression for [tokenStr], the same in the four handlers. *)
Definition tokenStr (r : Request) : string :=
  TrimSpace (Replace (Header_Get "Authorization" (Header r)) "Bearer" "" 1).

Definition AuthVerifyJWT (r : Request) : HandlerResult :=
  if negb IsPulsarJWTEnabled then ServeNext (setSubjects DummySuperRole r)
  else
    let '(subjects, err) := GetTokenSubject (tokenStr r) in
    match err with
    | None => ServeNext (setSubjects subjects r)
    | Some _ => HttpError "Unauthorized" StatusUnauthorized
    end.

Definition AuthVerifyTenantJWT (r : Request) : HandlerResult :=
  if negb IsPulsarJWTEnabled then ServeNext (setSubjects DummySuperRole r)
  else
    let '(subjects, err) := GetTokenSubject (tokenStr r) in
    match err with
    | Some _ => HttpError "failed to obtain subject" StatusUnauthorized
    | None =>
      let r := setSubjects subjects r in
      match Vars r !! "tenant" with
      | Some tenantName =>
        if VerifySubject tenantName subjects then ServeNext r
        else HttpError "Unauthorized" StatusUnauthorized
      | None => HttpError "Unauthorized" StatusUnauthorized
      end
    end.

Definition SuperRoleRequired (r : Request) : HandlerResult :=
  if negb IsPulsarJWTEnabled then ServeNext (setSubjects DummySuperRole r)
  else
    let '(subject, err) := GetTokenSubject (tokenStr r) in
    match err with
    | None =>
      if StrContains SuperRoles subject then ServeNext r
      else HttpError "Unauthorized" StatusUnauthorized
    | Some _ => HttpError "Unauthorized" StatusUnauthorized
    end.

Definition AuthHeaderRequired (r : Request) : HandlerResult :=
  if decide (1 < String.length (tokenStr r))%nat then ServeNext r
  else HttpError "Unauthorized" StatusUnauthorized.

Definition NoAuth (r : Request) : HandlerResult := ServeNext r.

End Middleware.

(** ** The package-level function map, nil until it is made *)

(** The functions above take a map that has been made.  The variable
    [functionMap] of the package is nil until [ReaderLoop] makes it: a read
    of a nil map finds nothing, a delete on it does nothing, an assignment
    to it panics.  The functions of this module are those of the package
    over that variable; [None] is a panic. *)
Module logclient.

Inductive FunctionMapVar : Type :=
  | NilMap
  | MadeMap (functionMap : gmap string FunctionType).

(** What a read finds in the variable. *)
Definition contents (v : FunctionMapVar) : gmap string FunctionType :=
  match v with
  | NilMap => ∅
  | MadeMap functionMap => functionMap
  end.

Definition ReadFunctionMap (key : string) (v : FunctionMapVar) : option FunctionType :=
  ReadFunctionMap key (contents v).

Definition WriteFunctionMap (key : string) (f : FunctionType) (v : FunctionMapVar)
  : option FunctionMapVar :=
  match v with
  | NilMap => None
  | MadeMap functionMap => Some (MadeMap (WriteFunctionMap key f functionMap))
  end.

Definition DeleteFunctionMap (key : string) (v : FunctionMapVar)
  : bool * FunctionMapVar :=
  match v with
  | NilMap => (false, NilMap)
  | MadeMap functionMap =>
    (fst (DeleteFunctionMap key functionMap),
     MadeMap (snd (DeleteFunctionMap key functionMap)))
  end.

Definition ParseServiceRequest (sr : option pb.FunctionMetaData) (workerID : string)
    (serviceType : pb.ServiceRequest_ServiceRequestType) (v : FunctionMapVar)
  : option FunctionMapVar :=
  md ← sr;
  let fd := pb.FunctionDetails md in
  let key := pb.GetTenant fd +:+ pb.GetNamespace fd +:+ pb.GetName fd in
  if decide (serviceType = pb.ServiceRequest_DELETE) then
    Some (snd (DeleteFunctionMap key v))
  else
    d ← fd;
    sink ← pb.Sink d;
    src ← pb.Source d;
    let f :=
      {| Tenant := pb.GetTenant fd;
         Namespace := pb.GetNamespace fd;
         FunctionName := pb.GetName fd;
         FunctionWorkerID := workerID;
         InputTopics :=
           pb.InputSpecs src ++
           (if decide (0 < String.length (pb.TopicsPattern src))%nat
            then [pb.TopicsPattern src] else []);
         InputTopicRegex := pb.GetTopicsPattern (pb.Source d);
         SinkTopic := pb.Topic sink;
         LogTopic := pb.GetLogTopic fd;
         AutoAck := pb.GetAutoAck fd;
         Parallism := pb.GetParallelism fd |} in
    WriteFunctionMap key f v.

(** [ReaderLoop] makes the map before anything else. *)
Definition ReaderLoop (newClientErr createReaderErr : option error)
    (events : list MetadataEvent) (v : FunctionMapVar)
  : FunctionMapVar * ReaderStatus :=
  (MadeMap (fst (ReaderLoop newClientErr createReaderErr events (contents v))),
   snd (ReaderLoop newClientErr createReaderErr events (contents v))).

End logclient.

(** ** Two deliveries of one log entry *)

(** The decoded form of one log entry of the metadata topic is fixed up to
    the order in which [range] visits the keys of [InputSpecs], which the
    Go runtime chooses anew at every pass.  Two requests are deliveries of
    the same entry when they differ at most in that order. *)
Definition sameSource (s s' : pb.SourceSpec) : Prop :=
  pb.TopicsPattern s = pb.TopicsPattern s' ∧ pb.InputSpecs s ≡ₚ pb.InputSpecs s'.

Definition sameDetails (d d' : pb.FunctionDetailsMsg) : Prop :=
  pb.Tenant d = pb.Tenant d' ∧ pb.Namespace d = pb.Namespace d' ∧
  pb.Name d = pb.Name d' ∧ pb.LogTopic d = pb.LogTopic d' ∧
  pb.AutoAck d = pb.AutoAck d' ∧ pb.Parallelism d = pb.Parallelism d' ∧
  option_Forall2 sameSource (pb.Source d) (pb.Source d') ∧
  pb.Sink d = pb.Sink d'.

Definition sameMetaData (md md' : pb.FunctionMetaData) : Prop :=
  option_Forall2 sameDetails (pb.FunctionDetails md) (pb.FunctionDetails md').

Definition sameRequest (sr sr' : pb.ServiceRequest) : Prop :=
  option_Forall2 sameMetaData (pb.GetFunctionMetaData sr) (pb.GetFunctionMetaData sr') ∧
  pb.GetWorkerId sr = pb.GetWorkerId sr' ∧
  pb.GetServiceRequestType sr = pb.GetServiceRequestType sr'.

Definition sameDelivery (ev ev' : MetadataEvent) : Prop :=
  match ev, ev' with
  | MetadataNextFails e, MetadataNextFails e' => e = e'
  | MetadataMessage sr err, MetadataMessage sr' err' => sameRequest sr sr' ∧ err = err'
  | _, _ => False
  end.

(** Two functions that differ at most in the order of their input topics,
    and two maps that hold such functions under the same keys. *)
Definition sameFunction (f f' : FunctionType) : Prop :=
  Tenant f = Tenant f' ∧ Namespace f = Namespace f' ∧
  FunctionName f = FunctionName f' ∧ FunctionWorkerID f = FunctionWorkerID f' ∧
  InputTopics f ≡ₚ InputTopics f' ∧ InputTopicRegex f = InputTopicRegex f' ∧
  SinkTopic f = SinkTopic f' ∧ LogTopic f = LogTopic f' ∧
  AutoAck f = AutoAck f' ∧ Parallism f = Parallism f'.

Definition sameFunctionMap (m m' : gmap string FunctionType) : Prop :=
  ∀ k, option_Forall2 sameFunction (m !! k) (m' !! k).

Definition sameWrite (w w' : string * option FunctionType) : Prop :=
  w.1 = w'.1 ∧ option_Forall2 sameFunction w.2 w'.2.

(** * Properties *)

(** ** Reconciliation *)

Lemma takeNonZero_zero b : takeNonZero 0 b = b.
Proof. reflexivity. Qed.

Lemma takeNonZero_nonzero a b : a ≠ 0 → takeNonZero a b = a.
Proof. intros Ha. unfold takeNonZero. by destruct (decide (a = 0)). Qed.

Lemma takeTenantStatus_unset b : takeTenantStatus Reserved0 b = b.
Proof. reflexivity. Qed.

Lemma takeTenantStatus_set a b : a ≠ Reserved0 → takeTenantStatus a b = a.
Proof. intros Ha. unfold takeTenantStatus. by destruct (decide (a = Reserved0)). Qed.

Lemma AssignString_pair a b :
  AssignString [a; b] = if decide (a = "") then b else a.
Proof.
  simpl. destruct (decide (a = "")) as [->|]; [|done].
  by destruct (decide (b = "")) as [->|].
Qed.

Section ReconcileFacts.

Variable ToLower : string → string.
Variable getPlanPolicy : string → option PlanPolicy.

Local Abbreviation Reconcile := (ReconcileTenantPlan ToLower getPlanPolicy).

(** An unknown plan type is rejected, whatever the existing record. *)
Lemma Reconcile_unknown now req ex :
  getPlanPolicy (ToLower (PlanType req)) = None →
  Reconcile now req ex = (emptyPlan, Some "a valid plan type is missing").
Proof. intros H. unfold ReconcileTenantPlan. simpl. by rewrite H. Qed.

(** The creation branch, in closed form. *)
Lemma Reconcile_create now req def :
  getPlanPolicy (ToLower (PlanType req)) = Some def →
  Reconcile now req emptyPlan =
    ({| Name := Name req;
        Status := takeTenantStatus (Status req) Activated;
        Org := Org req;
        Users := Users req;
        PlanType := PlanType req;
        UpdatedAt := now;
        Policy := if decide (Policy req = emptyPolicy) then def else Policy req;
        Audit := if decide (Audit req = "") then "initial creation," else Audit req |},
     None).
Proof.
  intros H. unfold ReconcileTenantPlan. simpl. rewrite H.
  destruct (decide (emptyPlan = emptyPlan)); [|done].
  destruct (decide (Audit req = "")); simpl;
    by destruct (decide (Policy req = emptyPolicy)).
Qed.

(** The update branch, in closed form. *)
Lemma Reconcile_update now req ex def :
  getPlanPolicy (ToLower (PlanType req)) = Some def →
  ex ≠ emptyPlan →
  Reconcile now req ex =
    ({| Name := Name req;
        Status := takeTenantStatus (Status req) (Status ex);
        Org := AssignString [Org req; Org ex];
        Users := AssignString [Users req; Users ex];
        PlanType := PlanType req;
        UpdatedAt := now;
        Policy := mergePolicy (Policy req) (Policy ex);
        Audit := Audit ex +:+ "," +:+ Audit req |},
     None).
Proof.
  intros H Hex. unfold ReconcileTenantPlan. simpl. rewrite H.
  by destruct (decide (emptyPlan = ex)) as [<-|].
Qed.

(** The clock reading reaches the result through [UpdatedAt] only. *)
Lemma Reconcile_restamp now now' req ex :
  Reconcile now' req ex =
    match snd (Reconcile now req ex) with
    | None => (set_UpdatedAt now' (fst (Reconcile now req ex)), None)
    | Some e => (emptyPlan, Some e)
    end.
Proof.
  unfold ReconcileTenantPlan. simpl.
  destruct (getPlanPolicy (ToLower (PlanType req))) as [def|]; [|done].
  destruct (decide (emptyPlan = ex)); [|done].
  destruct (decide (Audit req = "")); simpl;
    by destruct (decide (Policy req = emptyPolicy)).
Qed.

Lemma Reconcile_error_value now req ex e :
  snd (Reconcile now req ex) = Some e → fst (Reconcile now req ex) = emptyPlan.
Proof.
  unfold ReconcileTenantPlan. simpl.
  destruct (getPlanPolicy (ToLower (PlanType req))) as [def|]; [|done].
  by destruct (decide (emptyPlan = ex)).
Qed.

Lemma Reconcile_Name now req ex :
  snd (Reconcile now req ex) = None → Name (fst (Reconcile now req ex)) = Name req.
Proof.
  unfold ReconcileTenantPlan. simpl.
  destruct (getPlanPolicy (ToLower (PlanType req))) as [def|]; [|done].
  destruct (decide (emptyPlan = ex)); [|done].
  destruct (decide (Audit req = "")); simpl;
    by destruct (decide (Policy req = emptyPolicy)).
Qed.

End ReconcileFacts.

(** A request that sets one policy field keeps its other policy fields at
    zero on creation, for any plan table: the class default is taken only
    when the whole requested policy is zero-valued. *)
Lemma creation_partial_policy_kept ToLower getPlanPolicy now req def :
  getPlanPolicy (ToLower (PlanType req)) = Some def →
  Policy req ≠ emptyPolicy →
  Policy (fst (ReconcileTenantPlan ToLower getPlanPolicy now req emptyPlan)) = Policy req.
Proof.
  intros H Hne. rewrite (Reconcile_create _ _ _ _ _ H). simpl.
  by destruct (decide (Policy req = emptyPolicy)).
Qed.

(** C4, as stated, fails: with the plan class "free" (default of one
    namespace), a creation request that sets only [NumOfTopics] gets no
    default for [NumOfNamespaces], which it left unset. *)
Lemma creation_defaults_counterexample :
  ¬ (∀ (now : Time) (R : TenantPlan) (def : PlanPolicy),
       samplePlans (lowerString (PlanType R)) = Some def →
       NumOfNamespaces (Policy R) = 0 →
       NumOfNamespaces
         (Policy (fst (ReconcileTenantPlan lowerString samplePlans now R emptyPlan)))
       = NumOfNamespaces def).
Proof.
  intros H.
  specialize (H 1 (request "free" "" Reserved0 10) freePlan eq_refl eq_refl).
  vm_compute in H. discriminate H.
Qed.

(** C4 (amended): for a request [R] of a recognized plan type and the
    zero-value existing record, [ReconcileTenantPlan] takes the creation
    branch and succeeds; the status is [Activated] unless [R] set a non-zero
    one, the audit is the marker "initial creation," when [R] has none, and
    the policy is the class default when the whole policy of [R] is
    zero-valued, otherwise the policy of [R] as it is.  The other fields are
    those of [R], with [UpdatedAt] the clock reading. *)
Theorem creation_branch ToLower getPlanPolicy now R def :
  getPlanPolicy (ToLower (PlanType R)) = Some def →
  ∃ res,
    ReconcileTenantPlan ToLower getPlanPolicy now R emptyPlan = (res, None) ∧
    Status res = (if decide (Status R = Reserved0) then Activated else Status R) ∧
    Audit res = (if decide (Audit R = "") then "initial creation," else Audit R) ∧
    Policy res = (if decide (Policy R = emptyPolicy) then def else Policy R) ∧
    UpdatedAt res = now ∧
    Name res = Name R ∧ Org res = Org R ∧ Users res = Users R ∧
    PlanType res = PlanType R.
Proof.
  intros H. eexists. split; [by apply Reconcile_create|]. simpl.
  by repeat split.
Qed.

Lemma creation_branch_witness :
  samplePlans (lowerString (PlanType (request "Free" "" Reserved0 0))) = Some freePlan ∧
  ∃ res,
    ReconcileTenantPlan lowerString samplePlans 7
      (request "Free" "" Reserved0 0) emptyPlan = (res, None) ∧
    Status res = Activated ∧ Audit res = "initial creation," ∧ Policy res = freePlan.
Proof.
  split; [reflexivity|].
  destruct (creation_branch lowerString samplePlans 7
              (request "Free" "" Reserved0 0) freePlan eq_refl)
    as (res & Hres & Hst & Haud & Hpol & _).
  exists res. repeat split; assumption.
Defined.




(** C9, as stated, fails: two invocations on equal arguments return
    different records when the clock has moved between them. *)
Lemma Reconcile_clock_counterexample :
  ReconcileTenantPlan lowerString samplePlans 1 (request "free" "" Reserved0 0) emptyPlan
  ≠ ReconcileTenantPlan lowerString samplePlans 2 (request "free" "" Reserved0 0) emptyPlan.
Proof. vm_compute. discriminate. Qed.

(** C9 (amended): [ReconcileTenantPlan] is a function of the clock reading
    and its two arguments, which it receives by value; two invocations on
    equal arguments return the same error, and records that agree on every
    field other than [UpdatedAt], which is the clock reading of the
    invocation; the [UpdatedAt] of the request has no influence. *)
Theorem Reconcile_deterministic_up_to_UpdatedAt
    ToLower getPlanPolicy now1 now2 stamp req existing :
  let r1 := ReconcileTenantPlan ToLower getPlanPolicy now1 req existing in
  let r2 := ReconcileTenantPlan ToLower getPlanPolicy now2 req existing in
  snd r1 = snd r2 ∧
  set_UpdatedAt 0 (fst r1) = set_UpdatedAt 0 (fst r2) ∧
  (snd r1 = None → UpdatedAt (fst r1) = now1) ∧
  ReconcileTenantPlan ToLower getPlanPolicy now1 (set_UpdatedAt stamp req) existing = r1.
Proof.
  unfold ReconcileTenantPlan. simpl.
  destruct (getPlanPolicy (ToLower (PlanType req))) as [def|]; [|done].
  destruct (decide (emptyPlan = existing)); [|done].
  destruct (decide (Audit req = "")); simpl;
    by destruct (decide (Policy req = emptyPolicy)).
Qed.

(** ** The writer path *)

Lemma GetTenant_found K s t : tenants s !! K = Some t → GetTenant K s = (t, None).
Proof. intros H. unfold GetTenant. by rewrite H. Qed.

Lemma GetTenant_missing K s :
  tenants s !! K = None → GetTenant K s = (emptyPlan, Some "not found").
Proof. intros H. unfold GetTenant. by rewrite H. Qed.

Lemma GetTenant_same_cache K s s' : tenants s' = tenants s → GetTenant K s' = GetTenant K s.
Proof. intros H. unfold GetTenant. by rewrite H. Qed.

Lemma updateDb_acked now tp s :
  updateDb now SendAcked tp s =
    ((set_UpdatedAt now tp, None),
     {| tenants := <[Name tp := set_UpdatedAt now tp]> (tenants s);
        topic := topic s ++ [set_UpdatedAt now tp] |}).
Proof. reflexivity. Qed.

Lemma updateDb_failed now outcome e tp s :
  appendError outcome = Some e → updateDb now outcome tp s = ((emptyPlan, Some e), s).
Proof. destruct outcome; simpl; intros H; by simplify_eq. Qed.

Section WriterFacts.

Variable ToLower : string → string.
Variable getPlanPolicy : string → option PlanPolicy.

Local Abbreviation Reconcile := (ReconcileTenantPlan ToLower getPlanPolicy).
Local Abbreviation Update := (UpdateTenant ToLower getPlanPolicy).

(** [UpdateTenant], case by case on the reconciliation and the append. *)
Lemma UpdateTenant_unfold nowR nowW outcome K R s :
  Update nowR nowW outcome K R s =
    let r := Reconcile nowR (set_Name K R) (fst (GetTenant K s)) in
    match snd r with
    | Some e => ((emptyPlan, StatusUnprocessableEntity, Some e), s)
    | None =>
      match appendError outcome with
      | Some e => ((emptyPlan, StatusInternalServerError, Some e), s)
      | None =>
        let p := set_UpdatedAt nowW (fst r) in
        ((p, StatusOK, None),
         {| tenants := <[K := p]> (tenants s); topic := topic s ++ [p] |})
      end
    end.
Proof.
  unfold UpdateTenant. destruct (GetTenant K s) as [ex gerr]. simpl.
  pose proof (Reconcile_Name ToLower getPlanPolicy nowR (set_Name K R) ex) as HN.
  destruct (Reconcile nowR (set_Name K R) ex) as [newPlan [e|]]; simpl in *; [done|].
  destruct outcome; simpl; try done.
  by rewrite HN.
Qed.

(** A recognized plan type and an acknowledged send make the write
    succeed. *)
Lemma UpdateTenant_succeeds nowR nowW K R s def :
  getPlanPolicy (ToLower (PlanType R)) = Some def →
  ∃ p, Update nowR nowW SendAcked K R s =
         ((p, StatusOK, None),
          {| tenants := <[K := p]> (tenants s); topic := topic s ++ [p] |}) ∧
       p = fst (Reconcile nowW (set_Name K R) (fst (GetTenant K s))).
Proof.
  intros H. rewrite UpdateTenant_unfold. cbv zeta.
  rewrite (Reconcile_restamp _ _ nowR nowW).
  destruct (decide (fst (GetTenant K s) = emptyPlan)) as [->|Hne].
  - rewrite (Reconcile_create _ _ nowR (set_Name K R) def) by done. simpl. eauto.
  - rewrite (Reconcile_update _ _ nowR (set_Name K R) _ def) by done. simpl. eauto.
Qed.

(** C7: when the append fails (producer creation, serialization or send),
    [updateDb] returns that error and leaves the cache as it was, so every
    key reads as before; [UpdateTenant], the reconciliation having passed,
    returns the error with status 500 and leaves the cache as it was. *)
Theorem append_failure_preserves_cache nowR nowW outcome e K R tp s :
  appendError outcome = Some e →
  (fst (updateDb nowW outcome tp s) = (emptyPlan, Some e) ∧
   tenants (snd (updateDb nowW outcome tp s)) = tenants s ∧
   ∀ k, GetTenant k (snd (updateDb nowW outcome tp s)) = GetTenant k s) ∧
  (snd (Reconcile nowR (set_Name K R) (fst (GetTenant K s))) = None →
   fst (Update nowR nowW outcome K R s)
     = (emptyPlan, StatusInternalServerError, Some e) ∧
   tenants (snd (Update nowR nowW outcome K R s)) = tenants s ∧
   ∀ k, GetTenant k (snd (Update nowR nowW outcome K R s)) = GetTenant k s).
Proof.
  intros He. split.
  - by rewrite (updateDb_failed _ _ e).
  - intros Hr. rewrite UpdateTenant_unfold. cbv zeta. by rewrite Hr, He.
Qed.

(** C3 (amended): when [UpdateTenant K R] returns a nil error, [GetTenant K]
    on the resulting state finds, without error, the record that was
    returned, without any step of the listener.  That record is the result
    of the reconciliation of [R] (named [K]) against the record the cache
    held for [K] before the call, with [UpdatedAt] stamped anew by
    [updateDb]: it agrees with the reconciled result on every other field,
    and its [UpdatedAt] is the clock reading of the write. *)
Theorem read_your_write nowR nowW outcome K R s p code s' :
  Update nowR nowW outcome K R s = ((p, code, None), s') →
  let reconciled := Reconcile nowR (set_Name K R) (fst (GetTenant K s)) in
  GetTenant K s' = (p, None) ∧
  code = StatusOK ∧
  snd reconciled = None ∧
  p = set_UpdatedAt nowW (fst reconciled) ∧
  UpdatedAt p = nowW ∧
  Name p = Name (fst reconciled) ∧
  Status p = Status (fst reconciled) ∧
  Org p = Org (fst reconciled) ∧
  Users p = Users (fst reconciled) ∧
  PlanType p = PlanType (fst reconciled) ∧
  Policy p = Policy (fst reconciled) ∧
  Audit p = Audit (fst reconciled).
Proof.
  rewrite UpdateTenant_unfold. cbv zeta.
  destruct (snd (Reconcile nowR (set_Name K R) (fst (GetTenant K s)))) as [e|];
    [done|].
  destruct (appendError outcome) as [e|]; [done|].
  intros [= <- <- <-]. repeat split.
  apply GetTenant_found. simpl. apply lookup_insert_eq.
Qed.

End WriterFacts.

Lemma append_failure_preserves_cache_witness :
  let s := snd (UpdateTenant lowerString samplePlans 1 2 SendAcked "acme"
                  (request "free" "" Reserved0 10) Setup) in
  appendError (SendFails "timeout") = Some "timeout" ∧
  fst (UpdateTenant lowerString samplePlans 3 4 (SendFails "timeout") "acme"
         (request "free" "bump" Reserved0 0) s)
    = (emptyPlan, StatusInternalServerError, Some "timeout") ∧
  tenants (snd (UpdateTenant lowerString samplePlans 3 4 (SendFails "timeout") "acme"
                  (request "free" "bump" Reserved0 0) s)) = tenants s.
Proof.
  intros s.
  pose proof (append_failure_preserves_cache lowerString samplePlans 3 4
                (SendFails "timeout") "timeout" "acme"
                (request "free" "bump" Reserved0 0) emptyPlan s eq_refl) as [_ H].
  split; [reflexivity|].
  destruct H as (H1 & H2 & _); [vm_compute; reflexivity|].
  split; [exact H1 | exact H2].
Defined.

Lemma read_your_write_witness :
  ∃ p s',
    UpdateTenant lowerString samplePlans 1 2 SendAcked "acme"
      (request "free" "" Reserved0 10) Setup = ((p, StatusOK, None), s') ∧
    GetTenant "acme" s' = (p, None).
Proof.
  destruct (UpdateTenant_succeeds lowerString samplePlans 1 2 "acme"
              (request "free" "" Reserved0 10) Setup freePlan eq_refl) as (p & Hp & _).
  eexists p, _. split; [exact Hp|].
  exact (proj1 (read_your_write lowerString samplePlans 1 2 SendAcked "acme"
                  (request "free" "" Reserved0 10) Setup p StatusOK _ Hp)).
Defined.

(** C3, as stated, fails: the record [GetTenant] returns after the write is
    not equal to the result of the reconciliation, which was stamped at the
    clock reading of [ReconcileTenantPlan] (here 1), while [updateDb]
    stamped the stored record at its own (here 2). *)
Lemma read_your_write_counterexample :
  let R := request "free" "" Reserved0 10 in
  let res := UpdateTenant lowerString samplePlans 1 2 SendAcked "acme" R Setup in
  let reconciled :=
    ReconcileTenantPlan lowerString samplePlans 1 (set_Name "acme" R)
      (fst (GetTenant "acme" Setup)) in
  snd (fst res) = None ∧
  snd reconciled = None ∧
  GetTenant "acme" (snd res) ≠ (fst reconciled, None) ∧
  UpdatedAt (fst (GetTenant "acme" (snd res))) = 2 ∧
  UpdatedAt (fst reconciled) = 1.
Proof.
  intros R res reconciled.
  assert (HU : UpdatedAt (fst (GetTenant "acme" (snd res))) = 2).
  { vm_compute. reflexivity. }
  assert (HR : UpdatedAt (fst reconciled) = 1) by reflexivity.
  split; [reflexivity|]. split; [reflexivity|]. split; [|by split].
  intros E. rewrite E in HU. cbn [fst] in HU. rewrite HR in HU. discriminate HU.
Qed.

(** ** Invariants of the cache *)

Lemma coherent_empty : key_name_coherent ∅.
Proof. intros k t H. by rewrite lookup_empty in H. Qed.

Lemma coherent_insert (m : gmap string TenantPlan) t :
  key_name_coherent m → key_name_coherent (<[Name t := t]> m).
Proof.
  intros Hm k t'. destruct (decide (Name t = k)) as [<-|Hne].
  - rewrite lookup_insert_eq. by intros [= <-].
  - rewrite lookup_insert_ne by done. apply Hm.
Qed.

Lemma coherent_delete (m : gmap string TenantPlan) k :
  key_name_coherent m → key_name_coherent (delete k m).
Proof.
  intros Hm k' t'. destruct (decide (k = k')) as [<-|Hne].
  - by rewrite lookup_delete_eq.
  - rewrite lookup_delete_ne by done. apply Hm.
Qed.

Lemma coherent_applyEntry (m : gmap string TenantPlan) t :
  key_name_coherent m → key_name_coherent (applyEntry t m).
Proof.
  intros Hm. unfold applyEntry.
  destruct (decide (Status t ≠ Deleted)); auto using coherent_insert, coherent_delete.
Qed.

Lemma coherent_cache_step m m' :
  cache_step m m' → key_name_coherent m → key_name_coherent m'.
Proof.
  destruct 1; auto using coherent_insert, coherent_delete, coherent_applyEntry.
Qed.

Lemma coherent_listenLoop events m :
  key_name_coherent m → key_name_coherent (fst (listenLoop events m)).
Proof.
  revert m. induction events as [|[e|t err] rest IH]; intros m Hm; simpl; auto.
  apply IH. by apply coherent_applyEntry.
Qed.

Lemma coherent_updateDb now outcome tp s :
  key_name_coherent (tenants s) →
  key_name_coherent (tenants (snd (updateDb now outcome tp s))).
Proof.
  intros Hs. destruct outcome; simpl; try done.
  apply (coherent_insert _ (set_UpdatedAt now tp) Hs).
Qed.

Lemma coherent_DeleteTenant now outcome K s :
  key_name_coherent (tenants s) →
  key_name_coherent (tenants (snd (DeleteTenant now outcome K s))).
Proof.
  intros Hs. unfold DeleteTenant.
  destruct (tenants s !! K) as [t|]; [|done].
  destruct outcome; simpl; try done.
  apply coherent_delete.
  apply (coherent_insert _ (set_UpdatedAt now (set_Status Deleted t)) Hs).
Qed.

(** C10: if every key of the cache holds a record of that name, this is so
    after [UpdateTenant] (which stores the record it returns under its
    [tenantName] argument, with that name, whatever name the request
    carried), after [updateDb], after [DeleteTenant], after any run of
    [dbListener], and after any sequence of the critical sections that
    write the cache. *)
Theorem key_name_coherence ToLower getPlanPolicy s :
  key_name_coherent (tenants s) →
  (∀ nowR nowW outcome K R,
     key_name_coherent
       (tenants (snd (UpdateTenant ToLower getPlanPolicy nowR nowW outcome K R s))) ∧
     ∀ p code,
       fst (UpdateTenant ToLower getPlanPolicy nowR nowW outcome K R s) = (p, code, None) →
       Name p = K ∧
       tenants (snd (UpdateTenant ToLower getPlanPolicy nowR nowW outcome K R s)) !! K
         = Some p) ∧
  (∀ now outcome tp, key_name_coherent (tenants (snd (updateDb now outcome tp s)))) ∧
  (∀ now outcome K, key_name_coherent (tenants (snd (DeleteTenant now outcome K s)))) ∧
  (∀ createReaderErr events,
     key_name_coherent (tenants (fst (dbListener createReaderErr events s)))) ∧
  (∀ m, rtc cache_step (tenants s) m → key_name_coherent m).
Proof.
  intros Hs. repeat split.
  - rewrite UpdateTenant_unfold. cbv zeta.
    pose proof (Reconcile_Name ToLower getPlanPolicy nowR (set_Name K R)
                  (fst (GetTenant K s))) as HN.
    destruct (snd (ReconcileTenantPlan _ _ _ _ _)) as [e|]; [done|].
    destruct (appendError outcome); [done|]. simpl.
    specialize (HN eq_refl). simpl in HN. rewrite <- HN at 1.
    apply (coherent_insert _ (set_UpdatedAt nowW _) Hs).
  - revert H. rewrite UpdateTenant_unfold. cbv zeta.
    pose proof (Reconcile_Name ToLower getPlanPolicy nowR (set_Name K R)
                  (fst (GetTenant K s))) as HN.
    destruct (snd (ReconcileTenantPlan _ _ _ _ _)) as [e|]; [done|].
    destruct (appendError outcome); [done|]. simpl.
    intros [= <- _]. by apply HN.
  - revert H. rewrite UpdateTenant_unfold. cbv zeta.
    destruct (snd (ReconcileTenantPlan _ _ _ _ _)) as [e|]; [done|].
    destruct (appendError outcome); [done|]. simpl.
    intros [= <- _]. apply lookup_insert_eq.
  - intros. by apply coherent_updateDb.
  - intros. by apply coherent_DeleteTenant.
  - intros [e|] events; simpl; [done|].
    pose proof (coherent_listenLoop events (tenants s) Hs) as H.
    by destruct (listenLoop events (tenants s)).
  - intros m Hm. induction Hm; eauto using coherent_cache_step.
Qed.

Lemma key_name_coherence_witness :
  let s := snd (UpdateTenant lowerString samplePlans 1 2 SendAcked "acme"
                  (set_Name "other" (request "free" "" Reserved0 10)) Setup) in
  key_name_coherent (tenants Setup) ∧
  key_name_coherent (tenants s) ∧
  Name <$> tenants s !! "acme" = Some "acme".
Proof.
  intros s. split; [apply coherent_empty|].
  destruct (key_name_coherence lowerString samplePlans Setup coherent_empty)
    as (HU & _).
  split; [apply (HU 1 2 SendAcked "acme")|].
  vm_compute. reflexivity.
Defined.

(** The listener never stores a tombstone, and removes the key of one. *)
Lemma applyEntry_no_tombstone t m :
  no_tombstone m → no_tombstone (applyEntry t m).
Proof.
  intros Hm k t'. unfold applyEntry.
  destruct (decide (Status t ≠ Deleted)) as [Hst|Hst].
  - destruct (decide (Name t = k)) as [<-|Hne].
    + rewrite lookup_insert_eq. by intros [= <-].
    + rewrite lookup_insert_ne by done. apply Hm.
  - destruct (decide (Name t = k)) as [<-|Hne].
    + by rewrite lookup_delete_eq.
    + rewrite lookup_delete_ne by done. apply Hm.
Qed.

Lemma applyEntry_tombstone t m :
  Status t = Deleted → applyEntry t m !! Name t = None.
Proof.
  intros Hst. unfold applyEntry.
  destruct (decide (Status t ≠ Deleted)); [done|]. apply lookup_delete_eq.
Qed.

(** On success [DeleteTenant] is [updateDb] of the tombstone followed by the
    removal of the key. *)
Lemma DeleteTenant_acked now K s t :
  tenants s !! K = Some t →
  DeleteTenant now SendAcked K s =
    let s1 := snd (updateDb now SendAcked (set_Status Deleted t) s) in
    ((set_Status Deleted t, None),
     {| tenants := delete K (tenants s1); topic := topic s1 |}).
Proof. intros H. unfold DeleteTenant. by rewrite H. Qed.

Lemma DeleteTenant_removes now K s t :
  tenants s !! K = Some t →
  GetTenant K (snd (DeleteTenant now SendAcked K s)) = (emptyPlan, Some "not found").
Proof.
  intros H. rewrite (DeleteTenant_acked _ _ _ _ H). apply GetTenant_missing.
  simpl. apply lookup_delete_eq.
Qed.

(** ** Tombstones and the writer path *)

(** A request that carries the status [Deleted] is stored as it is. *)
Lemma UpdateTenant_stores_requested_tombstone
    ToLower getPlanPolicy nowR nowW K R s def :
  getPlanPolicy (ToLower (PlanType R)) = Some def →
  Status R = Deleted →
  ∃ p, tenants (snd (UpdateTenant ToLower getPlanPolicy nowR nowW SendAcked K R s)) !! K
         = Some p ∧ Status p = Deleted.
Proof.
  intros H HR.
  destruct (UpdateTenant_succeeds ToLower getPlanPolicy nowR nowW K R s def H)
    as (p & -> & Hp).
  exists p. split; [apply lookup_insert_eq|]. subst p.
  destruct (decide (fst (GetTenant K s) = emptyPlan)) as [->|Hne].
  - rewrite (Reconcile_create _ _ nowW (set_Name K R) def) by done. simpl.
    by rewrite HR.
  - rewrite (Reconcile_update _ _ nowW (set_Name K R) _ def) by done. simpl.
    by rewrite HR.
Qed.

(** Inside [DeleteTenant], once [updateDb] has returned and before the key
    is removed, the cache holds the tombstone. *)
Lemma DeleteTenant_intermediate now K s t :
  tenants s !! K = Some t →
  Name t = K →
  tenants (snd (updateDb now SendAcked (set_Status Deleted t) s)) !! K
    = Some (set_UpdatedAt now (set_Status Deleted t)).
Proof. intros _ <-. simpl. apply lookup_insert_eq. Qed.

(** C2 at a concrete run.  After the tenant "acme" is created, (1) the cache
    holds no tombstone; (2) [DeleteTenant "acme"] passes through a state,
    that left by its call of [updateDb], in which the cache holds "acme"
    with status [Deleted], before it removes the key; (3) [UpdateTenant]
    with a request of status [Deleted] leaves "acme" in the cache with
    status [Deleted]. *)
Theorem tombstone_reaches_cache :
  let s0 := snd (UpdateTenant lowerString samplePlans 1 2 SendAcked "acme"
                   (request "free" "" Reserved0 10) Setup) in
  no_tombstone (tenants s0) ∧
  (∃ t, tenants s0 !! "acme" = Some t ∧
        let s1 := snd (updateDb 3 SendAcked (set_Status Deleted t) s0) in
        snd (DeleteTenant 3 SendAcked "acme" s0)
          = {| tenants := delete "acme" (tenants s1); topic := topic s1 |} ∧
        Status <$> tenants s1 !! "acme" = Some Deleted ∧
        ¬ no_tombstone (tenants s1)) ∧
  Status <$> tenants (snd (UpdateTenant lowerString samplePlans 3 4 SendAcked "acme"
                             (request "free" "" Deleted 0) s0)) !! "acme"
    = Some Deleted.
Proof.
  intros s0.
  destruct (UpdateTenant_succeeds lowerString samplePlans 1 2 "acme"
              (request "free" "" Reserved0 10) Setup freePlan eq_refl) as (p & Hs0 & Hp).
  assert (Hst : Status p = Activated) by (subst p; reflexivity).
  assert (HN : Name p = "acme") by (subst p; reflexivity).
  assert (Hl : tenants s0 !! "acme" = Some p).
  { subst s0. rewrite Hs0. simpl. apply lookup_insert_eq. }
  split; [|split].
  - intros k t. subst s0. rewrite Hs0. simpl.
    destruct (decide ("acme" = k)) as [<-|Hne].
    + rewrite lookup_insert_eq. intros [= <-]. by rewrite Hst.
    + rewrite lookup_insert_ne by done. by rewrite lookup_empty.
  - exists p. split; [exact Hl|]. cbv zeta.
    rewrite (DeleteTenant_acked _ _ _ _ Hl).
    rewrite (DeleteTenant_intermediate _ _ _ _ Hl HN).
    split; [reflexivity|]. split; [reflexivity|].
    intros Hno.
    by apply (Hno "acme" _ (DeleteTenant_intermediate 3 _ _ _ Hl HN)).
  - destruct (UpdateTenant_stores_requested_tombstone lowerString samplePlans 3 4
                "acme" (request "free" "" Deleted 0) s0 freePlan eq_refl eq_refl)
      as (q & -> & Hq).
    simpl. by rewrite Hq.
Qed.

(** ** The consumer loop and malformed entries *)

(** The error of [json.Unmarshal] does not change the course of the loop. *)
Lemma listenLoop_unmarshal_error_ignored t e rest m :
  listenLoop (NextMessage t (Some e) :: rest) m = listenLoop rest (applyEntry t m).
Proof. reflexivity. Qed.

(** The loop returns on a failure of [reader.Next] and on nothing else. *)
Lemma listenLoop_terminates_on_read_error events m e :
  snd (listenLoop events m) = Terminated e → NextFails e ∈ events.
Proof.
  revert m. induction events as [|[e'|t err] rest IH]; intros m; simpl.
  - discriminate.
  - intros [= ->]. apply list_elem_of_here.
  - intros H. apply list_elem_of_further. by apply (IH _ H).
Qed.

Lemma listenLoop_applied events m :
  fst (listenLoop events m) = foldl (λ m t, applyEntry t m) m (applied events).
Proof.
  revert m. induction events as [|[e|t err] rest IH]; intros m; simpl; auto.
Qed.

(** C1 at a concrete run.  A message whose payload [json.Unmarshal] rejects,
    leaving the zero record, followed by a well-formed one: [dbListener]
    does not terminate (it is waiting for a third message), and the cache
    holds the zero record under the empty key.  In the same way
    [ReaderLoop] writes the request that [proto.Unmarshal] rejected. *)
Theorem unmarshal_error_is_applied :
  let acme := set_Name "acme" (request "free" "" Activated 10) in
  let details := pb.mkFunctionDetails "t" "ns" "f" "" false 0
                   (Some (pb.mkSourceSpec "" [])) (Some (pb.mkSinkSpec "")) in
  let truncated := pb.mkServiceRequest
                     (Some (pb.mkFunctionMetaData (Some details))) ""
                     (pb.ServiceRequest_OTHER 0) in
  dbListener None
    [NextMessage emptyPlan (Some "unexpected end of JSON input"); NextMessage acme None]
    Setup
  = ({| tenants := <["acme" := acme]> (<["" := emptyPlan]> ∅); topic := [] |},
     AwaitingNext) ∧
  snd (ReaderLoop None None
         [MetadataMessage truncated (Some "proto: unexpected EOF")] ∅)
    = ReaderAwaitingNext ∧
  is_Some (fst (ReaderLoop None None
                  [MetadataMessage truncated (Some "proto: unexpected EOF")] ∅)
           !! "tnsf").
Proof.
  intros acme details truncated. split; [reflexivity|]. split; [reflexivity|].
  simpl. unfold WriteFunctionMap. rewrite lookup_insert_eq. by eexists.
Qed.

(** ** Replay *)

Section Writes.

Context {V : Type}.
Implicit Types (m : gmap string V) (ws : list (string * option V)).

Lemma applyWrite_lookup_eq w m : applyWrite w m !! w.1 = w.2.
Proof. unfold applyWrite. by rewrite lookup_partial_alter_eq. Qed.

Lemma applyWrite_lookup_ne w m k : w.1 ≠ k → applyWrite w m !! k = m !! k.
Proof. intros H. unfold applyWrite. by rewrite lookup_partial_alter_ne. Qed.

Lemma applyWrites_snoc ws w m :
  applyWrites (ws ++ [w]) m = applyWrite w (applyWrites ws m).
Proof. unfold applyWrites. by rewrite foldl_app. Qed.

(** A key no write names keeps its binding. *)
Lemma applyWrites_lookup_untouched ws m k :
  k ∉ ws.*1 → applyWrites ws m !! k = m !! k.
Proof.
  induction ws as [|w ws IH] using rev_ind; [done|].
  rewrite fmap_app, not_elem_of_app. simpl. intros [Hws Hw].
  rewrite applyWrites_snoc, applyWrite_lookup_ne; [by apply IH|].
  intros <-. apply Hw, list_elem_of_here.
Qed.

(** The binding of a key some write names is set by the writes alone. *)
Lemma applyWrites_lookup_written ws m m' k :
  k ∈ ws.*1 → applyWrites ws m !! k = applyWrites ws m' !! k.
Proof.
  induction ws as [|w ws IH] using rev_ind; [by intros ?%elem_of_nil|].
  rewrite fmap_app, !applyWrites_snoc. simpl. intros Hin.
  destruct (decide (w.1 = k)) as [<-|Hne].
  - by rewrite !applyWrite_lookup_eq.
  - rewrite !applyWrite_lookup_ne by done. apply IH.
    apply elem_of_app in Hin as [Hin|Hin]; [done|].
    apply list_elem_of_singleton in Hin. congruence.
Qed.

Lemma applyWrites_idempotent ws m :
  applyWrites ws (applyWrites ws m) = applyWrites ws m.
Proof.
  apply map_eq. intros k. destruct (decide (k ∈ ws.*1)) as [Hin|Hout].
  - by apply applyWrites_lookup_written.
  - by rewrite applyWrites_lookup_untouched.
Qed.

End Writes.

Lemma applyEntry_write t m : applyEntry t m = applyWrite (entryWrite t) m.
Proof.
  unfold applyEntry, applyWrite, entryWrite. simpl.
  by destruct (decide (Status t ≠ Deleted)).
Qed.

Lemma listenLoop_writes events m :
  fst (listenLoop events m) = applyWrites (entryWrite <$> applied events) m.
Proof.
  rewrite listenLoop_applied. unfold applyWrites.
  generalize (applied events). intros ts. revert m.
  induction ts as [|t ts IH]; intros m; simpl; [done|].
  by rewrite IH, applyEntry_write.
Qed.

Lemma listenLoop_status events m m' :
  snd (listenLoop events m) = snd (listenLoop events m').
Proof.
  revert m m'. induction events as [|[e|t err] rest IH]; intros m m'; simpl; auto.
Qed.

(** A second run of the listener over the same events changes nothing. *)
Lemma dbListener_idempotent events s :
  fst (dbListener None events (fst (dbListener None events s)))
    = fst (dbListener None events s).
Proof.
  unfold dbListener.
  pose proof (listenLoop_writes events (tenants s)) as H1.
  destruct (listenLoop events (tenants s)) as [m1 st1]. simpl in *.
  pose proof (listenLoop_writes events m1) as H2.
  destruct (listenLoop events m1) as [m2 st2]. simpl in *.
  f_equal. rewrite H2, H1. apply applyWrites_idempotent.
Qed.

Lemma replays_from events n s :
  replays (S n) events s = fst (dbListener None events s).
Proof.
  revert s. induction n as [|n IH]; intros s; [done|].
  change (replays (S (S n)) events s)
    with (replays (S n) events (fst (dbListener None events s))).
  rewrite IH. apply dbListener_idempotent.
Qed.

(** The function metadata.  The effect of [ParseServiceRequest] on a made
    map is one keyed write, fixed by the request. *)
Lemma ParseServiceRequest_write sr (m : gmap string FunctionType) :
  ParseServiceRequest (pb.GetFunctionMetaData sr) (pb.GetWorkerId sr)
    (pb.GetServiceRequestType sr) m
  = (λ w, applyWrite w m) <$> metadataWrite sr.
Proof.
  unfold metadataWrite, ParseServiceRequest, DeleteFunctionMap, WriteFunctionMap,
    applyWrite.
  destruct (pb.GetFunctionMetaData sr) as [md|]; simpl; [|done].
  destruct (decide (pb.GetServiceRequestType sr = pb.ServiceRequest_DELETE)); simpl.
  - rewrite !lookup_empty. simpl. rewrite lookup_empty. simpl.
    destruct (m !! _) eqn:E; simpl; [done|].
    f_equal. exact (eq_sym (delete_id m _ E)).
  - destruct (pb.FunctionDetails md) as [d|]; simpl; [|done].
    destruct (pb.Sink d) as [sink|]; simpl; [|done].
    destruct (pb.Source d) as [src|]; simpl; [|done].
    by rewrite lookup_insert_eq.
Qed.

Lemma readerBody_writes events m :
  fst (readerBody events m) = applyWrites (metadataWrites events) m.
Proof.
  revert m. induction events as [|[e|sr err] rest IH]; intros m; simpl; try done.
  rewrite ParseServiceRequest_write.
  destruct (metadataWrite sr) as [w|]; simpl; [|done]. apply IH.
Qed.

(** Reading the same events again over the map they produced, with every
    [range] over [InputSpecs] visiting the keys in the same order, gives the
    same map; [ReaderLoop] itself starts from a fresh map on every run. *)
Lemma readerBody_idempotent events m :
  fst (readerBody events (fst (readerBody events m))) = fst (readerBody events m).
Proof. rewrite !readerBody_writes. apply applyWrites_idempotent. Qed.

Lemma ReaderLoop_fresh newClientErr createReaderErr events m m' :
  ReaderLoop newClientErr createReaderErr events m
    = ReaderLoop newClientErr createReaderErr events m'.
Proof. reflexivity. Qed.

(** *** Two deliveries of the same entries *)

Lemma sameFunction_refl f : sameFunction f f.
Proof. by repeat split. Qed.

Lemma sameFunctionMap_refl m : sameFunctionMap m m.
Proof.
  intros k. destruct (m !! k); constructor. apply sameFunction_refl.
Qed.

Lemma metadataWrite_same sr sr' :
  sameRequest sr sr' → option_Forall2 sameWrite (metadataWrite sr) (metadataWrite sr').
Proof.
  intros (Hmd & Hw & Hty).
  unfold metadataWrite, ParseServiceRequest, DeleteFunctionMap, WriteFunctionMap.
  rewrite <- Hw, <- Hty.
  destruct Hmd as [md md' Hmd|]; simpl; [|constructor].
  unfold sameMetaData in Hmd.
  destruct Hmd as [d d' (HT & HN & HF & HL & HA & HP & Hsrc & Hsink)|]; simpl.
  - rewrite <- HT, <- HN, <- HF, <- HL, <- HA, <- HP, <- Hsink.
    destruct (decide (pb.GetServiceRequestType sr = pb.ServiceRequest_DELETE)); simpl.
    + rewrite !lookup_empty. simpl. rewrite !lookup_empty.
      constructor. split; [done|constructor].
    + destruct (pb.Sink d) as [sink|]; simpl; [|constructor].
      destruct Hsrc as [src src' (Hpat & Hin)|]; simpl; [|constructor].
      rewrite !lookup_insert_eq. constructor. split; [done|]. simpl.
      constructor. rewrite <- Hpat. repeat split; simpl; try done. by rewrite Hin.
  - destruct (decide (pb.GetServiceRequestType sr = pb.ServiceRequest_DELETE)); simpl;
      [|constructor].
    rewrite !lookup_empty. simpl. rewrite !lookup_empty.
    constructor. split; [done|constructor].
Qed.

Lemma metadataWrites_same events events' :
  Forall2 sameDelivery events events' →
  Forall2 sameWrite (metadataWrites events) (metadataWrites events').
Proof.
  induction 1 as [|[e|sr err] [e'|sr' err'] events events' Hev _ IH]; simpl;
    try done; try constructor.
  destruct Hev as [Hsr _].
  destruct (metadataWrite_same sr sr' Hsr); by constructor.
Qed.

Lemma readerBody_status_same events events' (m m' : gmap string FunctionType) :
  Forall2 sameDelivery events events' →
  snd (readerBody events m) = snd (readerBody events' m').
Proof.
  intros H. revert m m'.
  induction H as [|[e|sr err] [e'|sr' err'] events events' Hev _ IH]; intros m m';
    simpl; try done.
  destruct Hev as [Hsr _]. rewrite !ParseServiceRequest_write.
  destruct (metadataWrite_same sr sr' Hsr); simpl; [apply IH|done].
Qed.

Lemma applyWrites_cons {V : Type} (w : string * option V) ws m :
  applyWrites (w :: ws) m = applyWrites ws (applyWrite w m).
Proof. reflexivity. Qed.

Lemma applyWrites_same ws ws' (m m' : gmap string FunctionType) :
  Forall2 sameWrite ws ws' → sameFunctionMap m m' →
  sameFunctionMap (applyWrites ws m) (applyWrites ws' m').
Proof.
  intros H. revert m m'.
  induction H as [|w w' ws ws' [Hk Hv] _ IH]; intros m m' Hm; [done|].
  rewrite !applyWrites_cons. apply IH. intros k.
  destruct (decide (w.1 = k)) as [<-|Hne].
  - rewrite applyWrite_lookup_eq. rewrite Hk, applyWrite_lookup_eq. exact Hv.
  - rewrite !applyWrite_lookup_ne by congruence. apply Hm.
Qed.

(** C8, as stated, fails for the function metadata: one log entry with the
    input specs "a" and "b", delivered twice with the keys ranged over in
    the two orders, leaves different functions in the map; read again over
    the map of the first pass, the second delivery changes it. *)
Lemma replay_metadata_counterexample :
  let request specs :=
    pb.mkServiceRequest
      (Some (pb.mkFunctionMetaData
               (Some (pb.mkFunctionDetails "t" "ns" "f" "" false 1
                        (Some (pb.mkSourceSpec "" specs)) (Some (pb.mkSinkSpec ""))))))
      "w" (pb.ServiceRequest_OTHER 0) in
  let once := [MetadataMessage (request ["a"; "b"]) None] in
  let again := [MetadataMessage (request ["b"; "a"]) None] in
  Forall2 sameDelivery once again ∧
  fst (ReaderLoop None None again ∅) ≠ fst (ReaderLoop None None once ∅) ∧
  fst (readerBody again (fst (readerBody once ∅))) ≠ fst (readerBody once ∅).
Proof.
  intros request once again. split.
  - constructor; [|constructor]. split; [|done].
    split; [|done]. constructor. constructor.
    repeat split; try done. constructor. split; [done|]. simpl.
    apply Permutation_swap.
  - split; intros E; apply (f_equal (λ m, InputTopics <$> m !! "tnsf")) in E;
      vm_compute in E; discriminate E.
Qed.

(** C8 (amended): for every sequence of reader events and every number
    [n ≥ 1] of runs of the listener over it, from the empty cache of
    [Setup], the state of the tenants after [n] runs is exactly the state
    after one run.  For the function metadata, two passes over deliveries
    of the same entries end in the same way and leave maps with the same
    keys and, under each key, the same function up to the order of its
    input topics, whether the second pass starts from a fresh map, as
    [ReaderLoop] does, or from the map of the first; when the keys of the
    input specs are ranged over in the same order the maps are equal. *)
Theorem replay_idempotent events n mevents mevents'
    (functionMap functionMap' : gmap string FunctionType) :
  (1 ≤ n)%nat →
  Forall2 sameDelivery mevents mevents' →
  replays n events Setup = replays 1 events Setup ∧
  snd (ReaderLoop None None mevents functionMap)
    = snd (ReaderLoop None None mevents' functionMap') ∧
  sameFunctionMap (fst (ReaderLoop None None mevents functionMap))
    (fst (ReaderLoop None None mevents' functionMap')) ∧
  sameFunctionMap (fst (readerBody mevents functionMap))
    (fst (readerBody mevents' (fst (readerBody mevents functionMap)))) ∧
  fst (readerBody mevents (fst (readerBody mevents functionMap)))
    = fst (readerBody mevents functionMap).
Proof.
  intros Hn Hev. split; [|split; [|split; [|split]]].
  - destruct n as [|n]; [lia|]. by rewrite !replays_from.
  - unfold ReaderLoop. by apply readerBody_status_same.
  - unfold ReaderLoop. rewrite !readerBody_writes.
    apply applyWrites_same; [by apply metadataWrites_same|apply sameFunctionMap_refl].
  - rewrite <- (readerBody_idempotent mevents functionMap) at 1.
    rewrite !readerBody_writes.
    apply applyWrites_same; [by apply metadataWrites_same|apply sameFunctionMap_refl].
  - apply readerBody_idempotent.
Qed.

Lemma replay_idempotent_witness :
  let acme := set_Name "acme" (request "free" "" Activated 10) in
  let gone := set_Name "beta" (request "free" "" Deleted 0) in
  let events := [NextMessage gone None; NextMessage acme None;
                 NextMessage (set_Name "beta" acme) None; NextMessage gone None] in
  let metadata specs :=
    [MetadataMessage
       (pb.mkServiceRequest
          (Some (pb.mkFunctionMetaData
                   (Some (pb.mkFunctionDetails "t" "ns" "f" "" false 1
                            (Some (pb.mkSourceSpec "" specs))
                            (Some (pb.mkSinkSpec ""))))))
          "w" (pb.ServiceRequest_OTHER 0)) None] in
  (1 ≤ 3)%nat ∧
  Forall2 sameDelivery (metadata ["a"; "b"]) (metadata ["b"; "a"]) ∧
  replays 3 events Setup = replays 1 events Setup ∧
  tenants (replays 1 events Setup) !! "acme" = Some acme ∧
  tenants (replays 1 events Setup) !! "beta" = None ∧
  sameFunctionMap (fst (ReaderLoop None None (metadata ["a"; "b"]) ∅))
    (fst (ReaderLoop None None (metadata ["b"; "a"]) ∅)).
Proof.
  intros acme gone events metadata.
  assert (Hev : Forall2 sameDelivery (metadata ["a"; "b"]) (metadata ["b"; "a"])).
  { constructor; [|constructor]. split; [|done].
    split; [|done]. constructor. constructor.
    repeat split; try done. constructor. split; [done|]. simpl.
    apply Permutation_swap. }
  assert (Hn : (1 ≤ 3)%nat) by lia.
  destruct (replay_idempotent events 3 (metadata ["a"; "b"]) (metadata ["b"; "a"])
              ∅ ∅ Hn Hev) as (Ht & _ & Hm & _).
  split; [exact Hn|]. split; [exact Hev|]. split; [exact Ht|].
  split; [vm_compute; reflexivity|]. split; [vm_compute; reflexivity|exact Hm].
Defined.

(** ** The end-to-end example *)

(** C6: two acknowledged writes for "acme" of a recognized plan type, the
    first with unset status and a quota ([NumOfTopics]) of 10 against the
    empty cache, the second with unset status, quota 0 and audit "bump".
    The cache then holds for "acme", and for no other key, a record of
    status [Activated], quota 10 and audit "initial creation,,bump"; a
    listener that replays the two appended entries over an empty cache
    arrives at the same cache. *)
Theorem end_to_end_acme ToLower getPlanPolicy planType def t1 t2 t3 t4 :
  getPlanPolicy (ToLower planType) = Some def →
  let s1 := snd (UpdateTenant ToLower getPlanPolicy t1 t2 SendAcked "acme"
                   (request planType "" Reserved0 10) Setup) in
  let s2 := snd (UpdateTenant ToLower getPlanPolicy t3 t4 SendAcked "acme"
                   (request planType "bump" Reserved0 0) s1) in
  ∃ final,
    GetTenant "acme" s2 = (final, None) ∧
    tenants s2 = {["acme" := final]} ∧
    Name final = "acme" ∧
    Status final = Activated ∧
    NumOfTopics (Policy final) = 10 ∧
    Audit final = "initial creation,,bump" ∧
    length (topic s2) = 2%nat ∧
    tenants (fst (dbListener None (delivered (topic s2)) Setup)) = tenants s2.
Proof.
  intros H. cbv zeta.
  destruct (UpdateTenant_succeeds ToLower getPlanPolicy t1 t2 "acme"
              (request planType "" Reserved0 10) Setup def H) as (p1 & E1 & Hp1).
  rewrite E1. cbn [snd].
  rewrite (GetTenant_missing "acme" Setup (lookup_empty _)) in Hp1.
  cbn [fst] in Hp1.
  rewrite (Reconcile_create _ _ t2
             (set_Name "acme" (request planType "" Reserved0 10)) def H) in Hp1.
  simpl in Hp1. clear E1.
  set (s1 := {| tenants := <["acme" := p1]> (tenants Setup);
                topic := topic Setup ++ [p1] |}).
  assert (Hne : p1 ≠ emptyPlan) by (subst p1; discriminate).
  assert (G1 : GetTenant "acme" s1 = (p1, None)).
  { apply GetTenant_found. simpl. apply lookup_insert_eq. }
  destruct (UpdateTenant_succeeds ToLower getPlanPolicy t3 t4 "acme"
              (request planType "bump" Reserved0 0) s1 def H) as (p2 & E2 & Hp2).
  rewrite E2. cbn [snd]. clear E2.
  rewrite G1 in Hp2. cbn [fst] in Hp2.
  rewrite (Reconcile_update _ _ t4
             (set_Name "acme" (request planType "bump" Reserved0 0)) p1 def H Hne)
    in Hp2.
  cbn [fst] in Hp2.
  assert (HS1 : Status p1 = Activated) by (subst p1; reflexivity).
  assert (HN1 : Name p1 = "acme") by (subst p1; reflexivity).
  assert (HS : Status p2 = Activated) by (subst p2; simpl; by rewrite HS1).
  assert (HN2 : Name p2 = "acme") by (subst p2; reflexivity).
  assert (HQ : NumOfTopics (Policy p2) = 10) by (subst p2 p1; reflexivity).
  assert (HA : Audit p2 = "initial creation,,bump") by (subst p2 p1; reflexivity).
  clear Hp1 Hp2 G1.
  assert (HT : <["acme" := p2]> (tenants s1) = {["acme" := p2]}).
  { subst s1. simpl. by rewrite insert_insert_eq, insert_empty. }
  exists p2. cbn [tenants topic]. rewrite HT.
  split; [apply GetTenant_found, lookup_singleton_eq|].
  do 5 (split; [assumption || reflexivity|]).
  split; [reflexivity|].
  simpl. unfold applyEntry. rewrite HS1, HS, HN1, HN2. simpl.
  by rewrite insert_insert_eq, insert_empty.
Qed.

Lemma end_to_end_acme_witness :
  samplePlans (lowerString "FREE") = Some freePlan ∧
  ∃ final,
    GetTenant "acme"
      (snd (UpdateTenant lowerString samplePlans 3 4 SendAcked "acme"
              (request "FREE" "bump" Reserved0 0)
              (snd (UpdateTenant lowerString samplePlans 1 2 SendAcked "acme"
                      (request "FREE" "" Reserved0 10) Setup))))
      = (final, None) ∧
    Status final = Activated ∧
    NumOfTopics (Policy final) = 10 ∧
    Audit final = "initial creation,,bump".
Proof.
  split; [reflexivity|].
  destruct (end_to_end_acme lowerString samplePlans "FREE" freePlan 1 2 3 4 eq_refl)
    as (final & HG & _ & _ & HS & HQ & HA & _).
  exists final. repeat split; assumption.
Defined.


(** The listener itself does not reconcile: it stores a record as the log
    delivers it.  The example holds because the entries of the log are the
    reconciled records that [updateDb] appended, not the requests. *)
Lemma listener_stores_entries_as_delivered :
  let update := set_Name "acme" (request "free" "bump" Reserved0 0) in
  let create := set_Name "acme" (request "free" "" Reserved0 10) in
  tenants (fst (dbListener None (delivered [create; update]) Setup)) !! "acme"
    = Some update.
Proof. vm_compute. reflexivity. Qed.

(** * Further properties of the writer path *)

Lemma append_comma_nonempty a b : a +:+ "," +:+ b ≠ "".
Proof. by destruct a. Qed.

Lemma takeTenantStatus_idem a b :
  takeTenantStatus a (takeTenantStatus a b) = takeTenantStatus a b.
Proof. unfold takeTenantStatus. by destruct (decide (a = Reserved0)). Qed.

Lemma takeNonZero_idem a b : takeNonZero a (takeNonZero a b) = takeNonZero a b.
Proof. unfold takeNonZero. by destruct (decide (a = 0)). Qed.

Lemma AssignString_idem a b :
  AssignString [a; AssignString [a; b]] = AssignString [a; b].
Proof. rewrite !AssignString_pair. by destruct (decide (a = "")). Qed.

Lemma mergePolicy_idem q x : mergePolicy q (mergePolicy q x) = mergePolicy q x.
Proof.
  unfold mergePolicy.
  cbn [PolicyName NumOfTopics NumOfNamespaces MessageHourRetention MessageRetention
       NumOfProducers NumOfConsumers Functions FeatureCodes].
  rewrite !takeNonZero_idem, !AssignString_idem.
  by destruct (decide (MessageHourRetention q = 0)).
Qed.

Lemma wrap64_small z : (- 2 ^ 63 ≤ z < 2 ^ 63)%Z → wrap64 z = z.
Proof. intros H. unfold wrap64. rewrite Z.mod_small; lia. Qed.

Section WriterMore.

Variable ToLower : string → string.
Variable getPlanPolicy : string → option PlanPolicy.

Local Abbreviation Reconcile := (ReconcileTenantPlan ToLower getPlanPolicy).
Local Abbreviation Update := (UpdateTenant ToLower getPlanPolicy).

Lemma Reconcile_ok_nonzero now req existing :
  snd (Reconcile now req existing) = None →
  fst (Reconcile now req existing) ≠ emptyPlan.
Proof.
  unfold ReconcileTenantPlan. simpl.
  destruct (getPlanPolicy (ToLower (PlanType req))) as [def|]; [|done].
  destruct (decide (emptyPlan = existing)); simpl; intros _ E.
  - apply (f_equal Status) in E. revert E.
    destruct (decide (Audit req = "")); simpl;
      destruct (decide (Policy req = emptyPolicy)); simpl;
      unfold takeTenantStatus; by destruct (decide (Status req = Reserved0)).
  - apply (f_equal Audit) in E. simpl in E.
    by apply append_comma_nonempty in E.
Qed.

(** X1: a successful reconciliation never returns the zero-value record, so
    a record it produced is never mistaken for a missing one when it is the
    existing record of a later reconciliation. *)
Theorem Reconcile_result_nonzero now req existing :
  snd (Reconcile now req existing) = None →
  fst (Reconcile now req existing) ≠ emptyPlan.
Proof. apply Reconcile_ok_nonzero. Qed.

(** The status a reconciliation returns is a tombstone only if the request
    or the existing record carries it. *)
Lemma Reconcile_status_alive now req existing :
  Status req ≠ Deleted → Status existing ≠ Deleted →
  snd (Reconcile now req existing) = None →
  Status (fst (Reconcile now req existing)) ≠ Deleted.
Proof.
  intros Hr He. unfold ReconcileTenantPlan. simpl.
  destruct (getPlanPolicy (ToLower (PlanType req))) as [def|]; [|done].
  destruct (decide (emptyPlan = existing)); simpl; intros _.
  - destruct (decide (Audit req = "")); simpl;
      destruct (decide (Policy req = emptyPolicy)); simpl;
      unfold takeTenantStatus; by destruct (decide (Status req = Reserved0)).
  - unfold takeTenantStatus. by destruct (decide (Status req = Reserved0)).
Qed.

(** X2: an unknown plan type makes [UpdateTenant] return the zero plan,
    status 422 and the validation error, whatever the broker would have
    answered, with the cache and the topic as they were. *)
Theorem UpdateTenant_rejects_unknown_plan nowR nowW outcome K R s :
  getPlanPolicy (ToLower (PlanType R)) = None →
  Update nowR nowW outcome K R s =
    ((emptyPlan, StatusUnprocessableEntity, Some "a valid plan type is missing"), s).
Proof.
  intros H. rewrite UpdateTenant_unfold. cbv zeta.
  by rewrite (Reconcile_unknown _ _ nowR (set_Name K R) _ H).
Qed.

(** X3: [UpdateTenant] ends in one of two ways.  Either the error is nil,
    the status is 200, the returned record is bound to [K] in the cache and
    is the one entry appended to the topic; or the error is not nil, the
    returned plan is the zero plan, the status is 422 or 500, and the cache
    and the topic are as they were. *)
Theorem UpdateTenant_outcomes nowR nowW outcome K R s :
  let res := Update nowR nowW outcome K R s in
  (snd (fst res) = None ∧ snd (fst (fst res)) = StatusOK ∧
   tenants (snd res) = <[K := fst (fst (fst res))]> (tenants s) ∧
   topic (snd res) = (topic s ++ [fst (fst (fst res))])%list) ∨
  (is_Some (snd (fst res)) ∧ fst (fst (fst res)) = emptyPlan ∧
   (snd (fst (fst res)) = StatusUnprocessableEntity ∨
    snd (fst (fst res)) = StatusInternalServerError) ∧
   snd res = s).
Proof.
  cbv zeta. rewrite UpdateTenant_unfold. cbv zeta.
  destruct (snd (Reconcile nowR (set_Name K R) (fst (GetTenant K s)))) as [e|].
  { right. simpl. eauto. }
  destruct (appendError outcome) as [e|].
  { right. simpl. eauto. }
  left. simpl. eauto.
Qed.

(** X4: [UpdateTenant K] leaves every other key of the cache as it was,
    whatever the outcome. *)
Theorem UpdateTenant_other_keys nowR nowW outcome K R s k :
  k ≠ K →
  GetTenant k (snd (Update nowR nowW outcome K R s)) = GetTenant k s.
Proof.
  intros Hk. rewrite UpdateTenant_unfold. cbv zeta.
  destruct (snd (Reconcile nowR (set_Name K R) (fst (GetTenant K s)))) as [e|];
    [done|].
  destruct (appendError outcome) as [e|]; [done|].
  unfold GetTenant. simpl. by rewrite lookup_insert_ne.
Qed.

Lemma coherent_UpdateTenant nowR nowW outcome K R s :
  key_name_coherent (tenants s) →
  key_name_coherent (tenants (snd (Update nowR nowW outcome K R s))).
Proof.
  intros Hs. rewrite UpdateTenant_unfold. cbv zeta.
  pose proof (Reconcile_Name ToLower getPlanPolicy nowR (set_Name K R)
                (fst (GetTenant K s))) as HN.
  destruct (snd (Reconcile nowR (set_Name K R) (fst (GetTenant K s)))) as [e|];
    [done|].
  destruct (appendError outcome); [done|]. simpl.
  specialize (HN eq_refl). simpl in HN. rewrite <- HN at 1.
  apply (coherent_insert _ (set_UpdatedAt nowW _) Hs).
Qed.

(** X5: repeating a request on its own result, in the update branch, changes
    nothing but the audit, which gets the entry once more, and the stamp:
    the merge of the other fields is idempotent. *)
Theorem Reconcile_retry now1 now2 req existing def :
  getPlanPolicy (ToLower (PlanType req)) = Some def →
  existing ≠ emptyPlan →
  let r1 := fst (Reconcile now1 req existing) in
  Reconcile now2 req r1 =
    (set_UpdatedAt now2 (set_Audit (Audit r1 +:+ "," +:+ Audit req) r1), None).
Proof.
  intros H Hex r1.
  assert (Hr1 : r1 ≠ emptyPlan).
  { apply Reconcile_ok_nonzero.
    by rewrite (Reconcile_update _ _ now1 req existing def). }
  rewrite (Reconcile_update _ _ now2 req r1 def H Hr1).
  subst r1. rewrite (Reconcile_update _ _ now1 req existing def H Hex).
  cbn [fst Policy Status Org Users Audit Name PlanType set_UpdatedAt set_Audit].
  by rewrite mergePolicy_idem, takeTenantStatus_idem, !AssignString_idem.
Qed.

(** X6: in the update branch the retention is the merged hours times one
    hour exactly, without wrap-around, as long as the merged hours are at
    most 2562047 in absolute value. *)
Theorem update_retention_exact now req existing def :
  getPlanPolicy (ToLower (PlanType req)) = Some def →
  existing ≠ emptyPlan →
  let r := Policy (fst (Reconcile now req existing)) in
  (-2562047 ≤ MessageHourRetention r ≤ 2562047)%Z →
  MessageRetention r = MessageHourRetention r * Hour.
Proof.
  intros H Hex. rewrite (Reconcile_update _ _ now req existing def H Hex).
  cbn [fst Policy mergePolicy MessageHourRetention MessageRetention].
  intros Hb. apply wrap64_small. unfold Hour. lia.
Qed.

End WriterMore.

(** Beyond that bound the retention wraps around to a negative duration. *)
Lemma retention_wraps_beyond_bound :
  wrap64 (2562048 * Hour) = (2562048 * Hour - 2 ^ 64)%Z ∧ (wrap64 (2562048 * Hour) < 0)%Z.
Proof. by vm_compute. Qed.

Lemma UpdateTenant_rejects_unknown_plan_witness :
  samplePlans (lowerString "gold") = None ∧
  UpdateTenant lowerString samplePlans 1 2 SendAcked "acme"
    (request "gold" "" Reserved0 10) Setup
  = ((emptyPlan, StatusUnprocessableEntity, Some "a valid plan type is missing"), Setup).
Proof.
  split; [reflexivity|].
  apply (UpdateTenant_rejects_unknown_plan lowerString samplePlans 1 2 SendAcked
           "acme" (request "gold" "" Reserved0 10) Setup).
  reflexivity.
Defined.

Lemma Reconcile_result_nonzero_witness :
  snd (ReconcileTenantPlan lowerString samplePlans 1
         (request "free" "" Reserved0 0) emptyPlan) = None ∧
  fst (ReconcileTenantPlan lowerString samplePlans 1
         (request "free" "" Reserved0 0) emptyPlan) ≠ emptyPlan.
Proof.
  split; [reflexivity|].
  apply (Reconcile_result_nonzero lowerString samplePlans 1
           (request "free" "" Reserved0 0) emptyPlan).
  reflexivity.
Defined.

Lemma UpdateTenant_other_keys_witness :
  "beta" ≠ "acme" ∧
  GetTenant "beta"
    (snd (UpdateTenant lowerString samplePlans 1 2 SendAcked "acme"
            (request "free" "" Reserved0 10) Setup))
  = GetTenant "beta" Setup.
Proof.
  assert (H : "beta" ≠ "acme") by discriminate.
  split; [exact H|].
  apply (UpdateTenant_other_keys lowerString samplePlans 1 2 SendAcked "acme"
           (request "free" "" Reserved0 10) Setup "beta" H).
Defined.

Lemma Reconcile_retry_witness :
  let existing := set_Policy (mkPlanPolicy "" 5 0 0 0 0 0 0 "")
                    (request "free" "initial creation," Activated 0) in
  let req := request "free" "bump" Reserved0 7 in
  samplePlans (lowerString (PlanType req)) = Some freePlan ∧
  existing ≠ emptyPlan ∧
  Audit (fst (ReconcileTenantPlan lowerString samplePlans 2 req
                (fst (ReconcileTenantPlan lowerString samplePlans 1 req existing))))
  = "initial creation,,bump,bump".
Proof.
  intros existing req.
  assert (Hex : existing ≠ emptyPlan) by discriminate.
  split; [reflexivity|]. split; [exact Hex|].
  rewrite (Reconcile_retry lowerString samplePlans 1 2 req existing freePlan
             eq_refl Hex).
  reflexivity.
Defined.

Lemma update_retention_exact_witness :
  let existing := request "free" "initial creation," Activated 5 in
  let req := set_Policy (mkPlanPolicy "" 0 0 72 0 0 0 0 "")
               (request "free" "" Reserved0 0) in
  samplePlans (lowerString (PlanType req)) = Some freePlan ∧
  existing ≠ emptyPlan ∧
  MessageRetention
    (Policy (fst (ReconcileTenantPlan lowerString samplePlans 1 req existing)))
  = 72 * Hour.
Proof.
  intros existing req.
  assert (Hex : existing ≠ emptyPlan) by discriminate.
  split; [reflexivity|]. split; [exact Hex|].
  rewrite (update_retention_exact lowerString samplePlans 1 req existing freePlan
             eq_refl Hex); [reflexivity|].
  vm_compute. split; discriminate.
Defined.

(** * Further properties of [DeleteTenant] *)

(** X7: when [DeleteTenant] returns an error (the key is missing, or the
    append failed) it returns the zero plan and leaves the cache and the
    topic as they were; a missing key is reported as "not found" whatever
    the broker would have answered. *)
Theorem DeleteTenant_error_unchanged now outcome K s e :
  snd (fst (DeleteTenant now outcome K s)) = Some e →
  fst (fst (DeleteTenant now outcome K s)) = emptyPlan ∧
  snd (DeleteTenant now outcome K s) = s ∧
  (tenants s !! K = None → e = "not found").
Proof.
  unfold DeleteTenant. destruct (tenants s !! K) as [t|].
  - destruct outcome; simpl; intros [= <-]; repeat split; done.
  - simpl. intros [= <-]. done.
Qed.

(** X8: in a cache where every key holds a record of that name, a
    successful [DeleteTenant K] removes exactly the key [K]; it returns the
    record the cache held with the status set to [Deleted], and appends to
    the topic that record, stamped, as the one new entry. *)
Theorem DeleteTenant_removes_exactly now K s t :
  key_name_coherent (tenants s) →
  tenants s !! K = Some t →
  let res := DeleteTenant now SendAcked K s in
  fst res = (set_Status Deleted t, None) ∧
  tenants (snd res) = delete K (tenants s) ∧
  GetTenant K (snd res) = (emptyPlan, Some "not found") ∧
  (∀ k, k ≠ K → GetTenant k (snd res) = GetTenant k s) ∧
  topic (snd res) = (topic s ++ [set_UpdatedAt now (set_Status Deleted t)])%list.
Proof.
  intros Hc Ht. cbv zeta. rewrite (DeleteTenant_acked _ _ _ _ Ht). cbv zeta.
  pose proof (Hc _ _ Ht) as HN. simpl. rewrite HN.
  rewrite delete_insert_eq.
  repeat split.
  - apply GetTenant_missing. simpl. apply lookup_delete_eq.
  - intros k Hk. unfold GetTenant. simpl. by rewrite lookup_delete_ne.
Qed.

Lemma DeleteTenant_error_unchanged_witness :
  snd (fst (DeleteTenant 1 SendAcked "acme" Setup)) = Some "not found" ∧
  snd (DeleteTenant 1 SendAcked "acme" Setup) = Setup.
Proof.
  assert (H : snd (fst (DeleteTenant 1 SendAcked "acme" Setup)) = Some "not found")
    by reflexivity.
  split; [exact H|].
  exact (proj1 (proj2 (DeleteTenant_error_unchanged 1 SendAcked "acme" Setup
                         "not found" H))).
Defined.

Lemma DeleteTenant_removes_exactly_witness :
  let acme := set_Name "acme" (request "free" "" Activated 10) in
  let s := {| tenants := {["acme" := acme]}; topic := [acme] |} in
  key_name_coherent (tenants s) ∧
  tenants s !! "acme" = Some acme ∧
  tenants (snd (DeleteTenant 5 SendAcked "acme" s)) = ∅.
Proof.
  intros acme s.
  assert (Hc : key_name_coherent (tenants s)).
  { apply (coherent_insert ∅ acme), coherent_empty. }
  assert (Ht : tenants s !! "acme" = Some acme) by apply lookup_singleton_eq.
  split; [exact Hc|]. split; [exact Ht|].
  destruct (DeleteTenant_removes_exactly 5 "acme" s acme Hc Ht) as (_ & -> & _).
  apply delete_singleton_eq.
Defined.

(** * The cache of the writer and the replay of the topic *)

Lemma applied_delivered entries : applied (delivered entries) = entries.
Proof. induction entries as [|t ts IH]; simpl; by rewrite ?IH. Qed.

Lemma applyWrite_entry_insert t (m : gmap string TenantPlan) :
  Status t ≠ Deleted → applyWrite (entryWrite t) m = <[Name t := t]> m.
Proof. intros H. rewrite <- applyEntry_write. unfold applyEntry. by case_decide. Qed.

Lemma applyWrite_entry_delete t (m : gmap string TenantPlan) :
  Status t = Deleted → applyWrite (entryWrite t) m = delete (Name t) m.
Proof.
  intros H. rewrite <- applyEntry_write. unfold applyEntry.
  case_decide; [done|reflexivity].
Qed.

Lemma applyWrites_entries_snoc (entries : list TenantPlan) t m :
  applyWrites (entryWrite <$> (entries ++ [t])%list) m
  = applyWrite (entryWrite t) (applyWrites (entryWrite <$> entries) m).
Proof. rewrite fmap_app. apply applyWrites_snoc. Qed.

(** The cache is free of tombstones, coherent, and what the topic replays to. *)
Definition in_step_with_topic (s : TenantPolicyHandler) : Prop :=
  key_name_coherent (tenants s) ∧
  no_tombstone (tenants s) ∧
  tenants s = applyWrites (entryWrite <$> topic s) ∅.

Lemma no_tombstone_insert (m : gmap string TenantPlan) k t :
  Status t ≠ Deleted → no_tombstone m → no_tombstone (<[k := t]> m).
Proof.
  intros Ht Hm k' t'. destruct (decide (k = k')) as [<-|Hne].
  - rewrite lookup_insert_eq. by intros [= <-].
  - rewrite lookup_insert_ne by done. apply Hm.
Qed.

Lemma no_tombstone_delete (m : gmap string TenantPlan) k :
  no_tombstone m → no_tombstone (delete k m).
Proof.
  intros Hm k' t'. destruct (decide (k = k')) as [<-|Hne].
  - by rewrite lookup_delete_eq.
  - rewrite lookup_delete_ne by done. apply Hm.
Qed.

Section Convergence.

Variable ToLower : string → string.
Variable getPlanPolicy : string → option PlanPolicy.

Lemma runOp_in_step op s :
  requestsNoTombstone op → in_step_with_topic s →
  in_step_with_topic (runOp ToLower getPlanPolicy op s).
Proof.
  intros Hop (Hc & Hn & Ht). destruct op as [nowR nowW outcome K R|now outcome K].
  - cbn [runOp requestsNoTombstone] in *.
    split; [by apply coherent_UpdateTenant|].
    rewrite UpdateTenant_unfold. cbv zeta.
    pose proof (Reconcile_Name ToLower getPlanPolicy nowR (set_Name K R)
                  (fst (GetTenant K s))) as HN.
    pose proof (Reconcile_status_alive ToLower getPlanPolicy nowR (set_Name K R)
                  (fst (GetTenant K s)) Hop) as HS.
    destruct (snd (ReconcileTenantPlan _ _ _ _ _)) as [e|]; [done|].
    destruct (appendError outcome); [done|]. cbn [snd tenants topic].
    specialize (HN eq_refl). cbn [set_Name Name] in HN.
    assert (Hex : Status (fst (GetTenant K s)) ≠ Deleted).
    { unfold GetTenant. destruct (tenants s !! K) as [t|] eqn:E; simpl; [|done].
      by apply (Hn K). }
    specialize (HS Hex eq_refl).
    split; [by apply no_tombstone_insert|].
    rewrite applyWrites_entries_snoc, <- Ht.
    rewrite applyWrite_entry_insert by done. cbn [set_UpdatedAt Name].
    by rewrite HN.
  - cbn [runOp] in *. unfold DeleteTenant.
    destruct (tenants s !! K) as [t|] eqn:E; [|done].
    destruct outcome; try done.
    cbn [updateDb snd fst tenants topic set_UpdatedAt set_Status Name].
    pose proof (Hc _ _ E) as HN. rewrite HN, delete_insert_eq.
    split; [by apply coherent_delete|]. split; [by apply no_tombstone_delete|].
    cbn [tenants topic].
    rewrite applyWrites_entries_snoc, <- Ht.
    rewrite applyWrite_entry_delete by done.
    cbn [Name set_UpdatedAt set_Status]. by rewrite HN.
Qed.

Lemma runOps_in_step ops s :
  Forall requestsNoTombstone ops → in_step_with_topic s →
  in_step_with_topic (runOps ToLower getPlanPolicy ops s).
Proof.
  intros Hops. revert s. induction Hops as [|op ops Hop _ IH]; intros s Hs; [done|].
  simpl. apply IH. by apply runOp_in_step.
Qed.

(** X9: after any sequence of [UpdateTenant] and [DeleteTenant] calls from
    the state of [Setup], with any answers of the broker, in which no
    request asks for the status [Deleted], the cache of the writer holds no
    tombstone and is the cache a listener builds by replaying the topic
    over an empty cache. *)
Theorem writer_cache_is_replay ops :
  Forall requestsNoTombstone ops →
  let s := runOps ToLower getPlanPolicy ops Setup in
  no_tombstone (tenants s) ∧
  tenants (fst (dbListener None (delivered (topic s)) Setup)) = tenants s.
Proof.
  intros Hops s.
  assert (H0 : in_step_with_topic Setup).
  { split; [apply coherent_empty|]. split; [|done].
    intros k t H. cbn [Setup tenants] in H. by rewrite lookup_empty in H. }
  destruct (runOps_in_step ops Setup Hops H0) as (_ & Hn & Ht).
  split; [exact Hn|]. fold s in Ht. rewrite Ht. unfold dbListener.
  pose proof (listenLoop_writes (delivered (topic s)) (tenants Setup)) as HL.
  destruct (listenLoop (delivered (topic s)) (tenants Setup)) as [m st].
  simpl in *. by rewrite HL, applied_delivered.
Qed.

End Convergence.

Lemma writer_cache_is_replay_witness :
  let ops := [OpUpdate 1 2 SendAcked "acme" (request "free" "" Reserved0 10);
              OpUpdate 3 4 (SendFails "timeout") "acme" (request "free" "x" Reserved0 0);
              OpUpdate 5 6 SendAcked "beta" (request "free" "" Reserved0 1);
              OpDelete 7 SendAcked "acme"] in
  Forall requestsNoTombstone ops ∧
  let s := runOps lowerString samplePlans ops Setup in
  tenants (fst (dbListener None (delivered (topic s)) Setup)) = tenants s ∧
  length (topic s) = 3%nat.
Proof.
  intros ops.
  assert (H : Forall requestsNoTombstone ops).
  { repeat constructor; simpl; discriminate. }
  split; [exact H|]. intros s. split.
  - exact (proj2 (writer_cache_is_replay lowerString samplePlans ops H)).
  - reflexivity.
Defined.

(** * The audit trail *)

Section AuditTrail.

Variable ToLower : string → string.
Variable getPlanPolicy : string → option PlanPolicy.

(** One acknowledged update of a key that holds a non-zero record. *)
Lemma UpdateTenant_update_step nowR nowW K R s existing :
  tenants s !! K = Some existing → existing ≠ emptyPlan →
  is_Some (getPlanPolicy (ToLower (PlanType R))) →
  ∃ p, tenants (snd (UpdateTenant ToLower getPlanPolicy nowR nowW SendAcked K R s)) !! K
         = Some p ∧
       p ≠ emptyPlan ∧
       Audit p = Audit existing +:+ "," +:+ Audit R.
Proof.
  intros Hs Hex [def Hdef].
  destruct (UpdateTenant_succeeds ToLower getPlanPolicy nowR nowW K R s def Hdef)
    as (p & -> & Hp).
  rewrite (GetTenant_found _ _ _ Hs) in Hp. cbn [fst] in Hp.
  exists p. split; [apply lookup_insert_eq|].
  pose proof (Reconcile_ok_nonzero ToLower getPlanPolicy nowW (set_Name K R)
                existing) as Hnz.
  rewrite (Reconcile_update _ _ nowW (set_Name K R) existing def Hdef Hex) in Hp, Hnz.
  split; [subst p; by apply Hnz|]. by subst p.
Qed.

(** X10: a sequence of acknowledged [UpdateTenant] calls for one key that
    holds a non-zero record, each request of a recognized plan type, leaves
    under that key a record whose audit is the audit it held followed, in
    order, by a comma and the audit of each request: no entry is lost or
    overwritten. *)
Theorem audit_accumulates K (rs : list (Time * Time * TenantPlan)) s existing :
  tenants s !! K = Some existing →
  existing ≠ emptyPlan →
  Forall (λ x, is_Some (getPlanPolicy (ToLower (PlanType x.2)))) rs →
  ∃ final,
    tenants (runOps ToLower getPlanPolicy
               ((λ x, OpUpdate x.1.1 x.1.2 SendAcked K x.2) <$> rs) s) !! K
      = Some final ∧
    Audit final = foldl (λ a x, a +:+ "," +:+ Audit x.2) (Audit existing) rs.
Proof.
  intros Hs Hex Hrs. revert s existing Hs Hex.
  induction Hrs as [|[[nowR nowW] R] rs HR _ IH]; intros s existing Hs Hex.
  - exists existing. by split.
  - destruct (UpdateTenant_update_step nowR nowW K R s existing Hs Hex HR)
      as (p & Hp & Hnz & Ha).
    destruct (IH _ p Hp Hnz) as (final & Hf & Haf).
    exists final. split; [exact Hf|]. simpl. by rewrite <- Ha.
Qed.

End AuditTrail.

Lemma audit_accumulates_witness :
  let existing := set_Name "acme" (request "free" "initial creation," Activated 10) in
  let s := {| tenants := {["acme" := existing]}; topic := [existing] |} in
  let rs := [(1, 2, request "free" "a" Reserved0 0);
             (3, 4, request "free" "" Reserved0 0);
             (5, 6, request "free" "c" Reserved0 0)] in
  tenants s !! "acme" = Some existing ∧
  existing ≠ emptyPlan ∧
  Forall (λ x, is_Some (samplePlans (lowerString (PlanType x.2)))) rs ∧
  Audit <$> tenants (runOps lowerString samplePlans
                       ((λ x, OpUpdate x.1.1 x.1.2 SendAcked "acme" x.2) <$> rs) s)
            !! "acme"
    = Some "initial creation,,a,,c".
Proof.
  intros existing s rs.
  assert (Hs : tenants s !! "acme" = Some existing) by apply lookup_singleton_eq.
  assert (Hex : existing ≠ emptyPlan) by discriminate.
  assert (Hrs : Forall (λ x, is_Some (samplePlans (lowerString (PlanType x.2)))) rs).
  { repeat constructor; by eexists. }
  split; [exact Hs|]. split; [exact Hex|]. split; [exact Hrs|].
  destruct (audit_accumulates lowerString samplePlans "acme" rs s existing Hs Hex Hrs)
    as (final & -> & Ha).
  simpl. by rewrite Ha.
Defined.

(** * Further properties of the consumer loop *)

Lemma applied_app_messages pre rest :
  Forall (λ ev, ∀ e, ev ≠ NextFails e) pre →
  applied (pre ++ rest) = (applied pre ++ applied rest)%list.
Proof.
  induction 1 as [|[e|t err] pre Hev _ IH]; simpl; [done| |by rewrite IH].
  by destruct (Hev e).
Qed.

Lemma applyWrites_app {V : Type} (ws1 ws2 : list (string * option V)) m :
  applyWrites (ws1 ++ ws2) m = applyWrites ws2 (applyWrites ws1 m).
Proof. unfold applyWrites. by rewrite foldl_app. Qed.

Lemma listenLoop_app_messages pre rest m :
  Forall (λ ev, ∀ e, ev ≠ NextFails e) pre →
  listenLoop (pre ++ rest) m = listenLoop rest (fst (listenLoop pre m)).
Proof.
  intros H. revert m. induction H as [|[e|t err] pre Hev _ IH]; intros m; simpl;
    [done| |by rewrite IH].
  by destruct (Hev e).
Qed.

(** X11: after a run of the listener, the key of a message that was reached
    (no read error before it) and that no later applied message names again
    is bound to the record of that message, or is absent if the record is a
    tombstone, whatever the cache held before. *)
Theorem listener_last_entry_wins pre t err post s :
  Forall (λ ev, ∀ e, ev ≠ NextFails e) pre →
  Forall (λ t', Name t' ≠ Name t) (applied post) →
  GetTenant (Name t) (fst (dbListener None (pre ++ NextMessage t err :: post) s))
  = if decide (Status t ≠ Deleted) then (t, None)
    else (emptyPlan, Some "not found").
Proof.
  intros Hpre Hpost. unfold dbListener, GetTenant.
  pose proof (listenLoop_writes (pre ++ NextMessage t err :: post) (tenants s)) as HL.
  destruct (listenLoop (pre ++ NextMessage t err :: post) (tenants s)) as [m st].
  cbn [fst tenants] in *. rewrite HL.
  rewrite (applied_app_messages _ _ Hpre). cbn [applied].
  rewrite fmap_app, fmap_cons, applyWrites_app, applyWrites_cons.
  rewrite applyWrites_lookup_untouched.
  - change (Name t) with ((entryWrite t).1).
    rewrite applyWrite_lookup_eq. unfold entryWrite. cbn [snd].
    by destruct (decide (Status t ≠ Deleted)).
  - rewrite <- list_fmap_compose. intros Hin.
    apply list_elem_of_fmap in Hin as (t' & Heq & Hin).
    rewrite Forall_forall in Hpost. by apply (Hpost t' Hin).
Qed.

(** X12: a failure of [reader.Next] ends the run: the listener returns that
    error with the cache as the messages before the failure left it, and
    nothing that follows in the topic is applied. *)
Theorem listener_stops_at_read_error pre e post s :
  Forall (λ ev, ∀ e', ev ≠ NextFails e') pre →
  dbListener None (pre ++ NextFails e :: post) s
  = (fst (dbListener None pre s), Terminated e).
Proof.
  intros Hpre. unfold dbListener.
  rewrite (listenLoop_app_messages _ _ _ Hpre).
  destruct (listenLoop pre (tenants s)) as [m st]. reflexivity.
Qed.

(** X13: a run of the listener, however it ends, never puts a tombstone
    into a cache that held none. *)
Theorem listener_keeps_no_tombstone createReaderErr events s :
  no_tombstone (tenants s) →
  no_tombstone (tenants (fst (dbListener createReaderErr events s))).
Proof.
  intros Hs. destruct createReaderErr as [e|]; [done|]. unfold dbListener.
  assert (H : no_tombstone (fst (listenLoop events (tenants s)))).
  { generalize (tenants s) Hs. clear Hs.
    induction events as [|[e|t err] rest IH]; intros m Hm; simpl; auto.
    apply IH. by apply applyEntry_no_tombstone. }
  by destruct (listenLoop events (tenants s)).
Qed.

Lemma listener_last_entry_wins_witness :
  let acme := set_Name "acme" (request "free" "" Activated 10) in
  let gone := set_Name "acme" (request "free" "" Deleted 0) in
  let beta := set_Name "beta" (request "free" "" Activated 1) in
  Forall (λ ev, ∀ e, ev ≠ NextFails e) [NextMessage acme None] ∧
  Forall (λ t', Name t' ≠ Name gone) (applied [NextMessage beta None; NextFails "eof"]) ∧
  GetTenant "acme"
    (fst (dbListener None
            ([NextMessage acme None] ++
             NextMessage gone None :: [NextMessage beta None; NextFails "eof"]) Setup))
  = (emptyPlan, Some "not found").
Proof.
  intros acme gone beta.
  assert (H1 : Forall (λ ev, ∀ e, ev ≠ NextFails e) [NextMessage acme None]).
  { repeat (constructor; try (intros; simpl; discriminate)). }
  assert (H2 : Forall (λ t', Name t' ≠ Name gone)
                 (applied [NextMessage beta None; NextFails "eof"])).
  { repeat (constructor; try (intros; simpl; discriminate)). }
  split; [exact H1|]. split; [exact H2|].
  exact (listener_last_entry_wins [NextMessage acme None] gone None
           [NextMessage beta None; NextFails "eof"] Setup H1 H2).
Defined.

Lemma listener_stops_at_read_error_witness :
  let acme := set_Name "acme" (request "free" "" Activated 10) in
  let beta := set_Name "beta" (request "free" "" Activated 1) in
  Forall (λ ev, ∀ e', ev ≠ NextFails e') [NextMessage acme None] ∧
  dbListener None ([NextMessage acme None] ++ NextFails "eof" :: [NextMessage beta None])
    Setup
  = ({| tenants := {["acme" := acme]}; topic := [] |}, Terminated "eof").
Proof.
  intros acme beta.
  assert (H1 : Forall (λ ev, ∀ e, ev ≠ NextFails e) [NextMessage acme None]).
  { repeat (constructor; try (intros; simpl; discriminate)). }
  split; [exact H1|].
  rewrite (listener_stops_at_read_error [NextMessage acme None] "eof"
             [NextMessage beta None] Setup H1).
  reflexivity.
Defined.

Lemma listener_keeps_no_tombstone_witness :
  let gone := set_Name "acme" (request "free" "" Deleted 0) in
  no_tombstone (tenants Setup) ∧
  no_tombstone (tenants (fst (dbListener None [NextMessage gone None] Setup))).
Proof.
  intros gone.
  assert (H : no_tombstone (tenants Setup)).
  { intros k t Hk. cbn [Setup tenants] in Hk. by rewrite lookup_empty in Hk. }
  split; [exact H|].
  exact (listener_keeps_no_tombstone None [NextMessage gone None] Setup H).
Defined.

(** * The function map *)

(** X14: [DeleteFunctionMap] reports [true] exactly when the key was bound;
    afterwards the key is unbound and every other key is as before. *)
Theorem DeleteFunctionMap_spec key (functionMap : gmap string FunctionType) :
  (fst (DeleteFunctionMap key functionMap) = true
     ↔ is_Some (ReadFunctionMap key functionMap)) ∧
  ReadFunctionMap key (snd (DeleteFunctionMap key functionMap)) = None ∧
  ∀ k, k ≠ key →
       ReadFunctionMap k (snd (DeleteFunctionMap key functionMap))
       = ReadFunctionMap k functionMap.
Proof.
  unfold DeleteFunctionMap, ReadFunctionMap.
  destruct (functionMap !! key) as [f|] eqn:E; simpl.
  - split; [split; eauto|]. split; [apply lookup_delete_eq|].
    intros k Hk. by rewrite lookup_delete_ne.
  - split; [split; [done|by intros [? ?]]|]. by split.
Qed.

(** Over a map that has been made, the panics are the nil dereferences. *)
Lemma ParseServiceRequest_made_panics sr workerID serviceType
    (functionMap : gmap string FunctionType) :
  ParseServiceRequest sr workerID serviceType functionMap = None
  ↔ sr = None ∨
    (serviceType ≠ pb.ServiceRequest_DELETE ∧
     ∀ md d, sr = Some md → pb.FunctionDetails md = Some d →
             pb.Source d = None ∨ pb.Sink d = None).
Proof.
  unfold ParseServiceRequest. destruct sr as [md|]; simpl; [|by split; eauto].
  destruct (decide (serviceType = pb.ServiceRequest_DELETE)) as [->|Hty].
  - split; [done|]. intros [|[H _]]; done.
  - destruct (pb.FunctionDetails md) as [d|] eqn:Ed; simpl.
    + destruct (pb.Sink d) as [sink|] eqn:Es; simpl.
      * destruct (pb.Source d) as [src|] eqn:Esrc; simpl.
        -- split; [done|]. intros [|[_ H]]; [done|].
           destruct (H md d eq_refl Ed) as [?|?]; congruence.
        -- split; [|done]. intros _. right. split; [done|].
           intros md' d' [= <-] Hd. left. congruence.
      * split; [|done]. intros _. right. split; [done|].
        intros md' d' [= <-] Hd. right. congruence.
    + split; [|done]. intros _. right. split; [done|].
      intros md' d' [= <-] Hd. congruence.
Qed.

(** Over a map that has been made, what a well-formed request binds. *)
Lemma ParseServiceRequest_made_writes md d src sink workerID serviceType
    (functionMap : gmap string FunctionType) :
  serviceType ≠ pb.ServiceRequest_DELETE →
  pb.FunctionDetails md = Some d →
  pb.Source d = Some src →
  pb.Sink d = Some sink →
  let key := pb.Tenant d +:+ pb.Namespace d +:+ pb.Name d in
  ∃ functionMap' f,
    ParseServiceRequest (Some md) workerID serviceType functionMap = Some functionMap' ∧
    ReadFunctionMap key functionMap' = Some f ∧
    (∀ k, k ≠ key → ReadFunctionMap k functionMap' = ReadFunctionMap k functionMap) ∧
    Tenant f = pb.Tenant d ∧ Namespace f = pb.Namespace d ∧
    FunctionName f = pb.Name d ∧ FunctionWorkerID f = workerID ∧
    SinkTopic f = pb.Topic sink ∧ InputTopicRegex f = pb.TopicsPattern src ∧
    InputTopics f
      = (pb.InputSpecs src ++
         if decide (pb.TopicsPattern src = "") then [] else [pb.TopicsPattern src])%list.
Proof.
  intros Hty Hd Hsrc Hsink key. unfold ParseServiceRequest. simpl.
  destruct (decide (serviceType = pb.ServiceRequest_DELETE)); [done|].
  rewrite Hd. simpl. rewrite Hsink, Hsrc. simpl.
  eexists _, _. split; [reflexivity|]. unfold WriteFunctionMap, ReadFunctionMap.
  split; [apply lookup_insert_eq|].
  split; [intros k Hk; by rewrite lookup_insert_ne|].
  simpl. repeat split.
  f_equal. destruct (pb.TopicsPattern src); simpl; [|done].
  by destruct (decide (0 < 0)%nat); [lia|].
Qed.

(** Over the package variable: on a made map the function is the one
    above; on the nil map a delete leaves it nil and anything else panics. *)
Lemma logclient_ParseServiceRequest_made sr workerID serviceType
    (functionMap : gmap string FunctionType) :
  logclient.ParseServiceRequest sr workerID serviceType (logclient.MadeMap functionMap)
  = logclient.MadeMap <$> ParseServiceRequest sr workerID serviceType functionMap.
Proof.
  unfold logclient.ParseServiceRequest, ParseServiceRequest.
  destruct sr as [md|]; simpl; [|done].
  destruct (decide (serviceType = pb.ServiceRequest_DELETE)); simpl; [done|].
  destruct (pb.FunctionDetails md) as [d|]; simpl; [|done].
  destruct (pb.Sink d) as [sink|]; simpl; [|done].
  by destruct (pb.Source d) as [src|].
Qed.

Lemma logclient_ParseServiceRequest_nil sr workerID serviceType :
  logclient.ParseServiceRequest sr workerID serviceType logclient.NilMap
  = match sr with
    | Some _ =>
      if decide (serviceType = pb.ServiceRequest_DELETE)
      then Some logclient.NilMap else None
    | None => None
    end.
Proof.
  unfold logclient.ParseServiceRequest.
  destruct sr as [md|]; simpl; [|done].
  destruct (decide (serviceType = pb.ServiceRequest_DELETE)); simpl; [done|].
  destruct (pb.FunctionDetails md) as [d|]; simpl; [|done].
  destruct (pb.Sink d) as [sink|]; simpl; [|done].
  by destruct (pb.Source d) as [src|].
Qed.

(** X15: [ParseServiceRequest], over the function map of the package,
    panics exactly when its metadata pointer is nil or, for a request other
    than a delete, when the map is still nil (it has not been made by
    [ReaderLoop]) or the function details, their source or their sink is
    nil.  A delete with a metadata pointer never panics, on a nil map
    either. *)
Theorem ParseServiceRequest_panics sr workerID serviceType
    (v : logclient.FunctionMapVar) :
  logclient.ParseServiceRequest sr workerID serviceType v = None
  ↔ sr = None ∨
    (serviceType ≠ pb.ServiceRequest_DELETE ∧
     (v = logclient.NilMap ∨
      ∀ md d, sr = Some md → pb.FunctionDetails md = Some d →
              pb.Source d = None ∨ pb.Sink d = None)).
Proof.
  destruct v as [|functionMap].
  - rewrite logclient_ParseServiceRequest_nil. destruct sr as [md|].
    + destruct (decide (serviceType = pb.ServiceRequest_DELETE)) as [->|Hty].
      * split; [done|]. intros [|[H _]]; done.
      * split; [|done]. intros _. right. split; [done|]. by left.
    + split; [|done]. intros _. by left.
  - rewrite logclient_ParseServiceRequest_made, fmap_None.
    rewrite ParseServiceRequest_made_panics.
    split.
    + intros [|[Hty H]]; [by left|]. right. split; [done|]. by right.
    + intros [|[Hty [|H]]]; [by left|done|]. right. by split.
Qed.

(** X16: over a function map that has been made, a request other than a
    delete, with its details, source and sink present, binds the key
    tenant+namespace+name to a function built from the request: the worker
    is the one given, the input topics are the keys of the input specs
    followed by the topics pattern when that is not empty; every other key
    is as before.  Over the nil map the same request panics and binds
    nothing. *)
Theorem ParseServiceRequest_writes md d src sink workerID serviceType
    (functionMap : gmap string FunctionType) :
  serviceType ≠ pb.ServiceRequest_DELETE →
  pb.FunctionDetails md = Some d →
  pb.Source d = Some src →
  pb.Sink d = Some sink →
  let key := pb.Tenant d +:+ pb.Namespace d +:+ pb.Name d in
  logclient.ParseServiceRequest (Some md) workerID serviceType logclient.NilMap = None ∧
  ∃ functionMap' f,
    logclient.ParseServiceRequest (Some md) workerID serviceType
      (logclient.MadeMap functionMap) = Some (logclient.MadeMap functionMap') ∧
    logclient.ReadFunctionMap key (logclient.MadeMap functionMap') = Some f ∧
    (∀ k, k ≠ key →
          logclient.ReadFunctionMap k (logclient.MadeMap functionMap')
          = logclient.ReadFunctionMap k (logclient.MadeMap functionMap)) ∧
    Tenant f = pb.Tenant d ∧ Namespace f = pb.Namespace d ∧
    FunctionName f = pb.Name d ∧ FunctionWorkerID f = workerID ∧
    SinkTopic f = pb.Topic sink ∧ InputTopicRegex f = pb.TopicsPattern src ∧
    InputTopics f
      = (pb.InputSpecs src ++
         if decide (pb.TopicsPattern src = "") then [] else [pb.TopicsPattern src])%list.
Proof.
  intros Hty Hd Hsrc Hsink key. split.
  - rewrite logclient_ParseServiceRequest_nil.
    by destruct (decide (serviceType = pb.ServiceRequest_DELETE)).
  - destruct (ParseServiceRequest_made_writes md d src sink workerID serviceType
                functionMap Hty Hd Hsrc Hsink) as (m' & f & Hp & Hrest).
    exists m', f. rewrite logclient_ParseServiceRequest_made, Hp.
    split; [reflexivity|]. exact Hrest.
Qed.

(** After a run of [ReaderLoop] the map of the package is made, whatever it
    was before and however the run ended. *)
Lemma ReaderLoop_makes_map newClientErr createReaderErr events v :
  ∃ functionMap,
    fst (logclient.ReaderLoop newClientErr createReaderErr events v)
    = logclient.MadeMap functionMap.
Proof. by eexists. Qed.

(** X17: the key is the bare concatenation of tenant, namespace and name,
    so two functions whose three names concatenate to the same string share
    one binding: after both are written only the second can be read, and the
    map is what it would be had the first never been written. *)
Theorem ParseServiceRequest_key_collision md1 d1 src1 sink1 md2 d2 src2 sink2
    w1 w2 ty1 ty2 (functionMap : gmap string FunctionType) :
  ty1 ≠ pb.ServiceRequest_DELETE → ty2 ≠ pb.ServiceRequest_DELETE →
  pb.FunctionDetails md1 = Some d1 → pb.Source d1 = Some src1 → pb.Sink d1 = Some sink1 →
  pb.FunctionDetails md2 = Some d2 → pb.Source d2 = Some src2 → pb.Sink d2 = Some sink2 →
  pb.Tenant d1 +:+ pb.Namespace d1 +:+ pb.Name d1
    = pb.Tenant d2 +:+ pb.Namespace d2 +:+ pb.Name d2 →
  ∃ m1 m2 f,
    ParseServiceRequest (Some md1) w1 ty1 functionMap = Some m1 ∧
    ParseServiceRequest (Some md2) w2 ty2 m1 = Some m2 ∧
    ReadFunctionMap (pb.Tenant d1 +:+ pb.Namespace d1 +:+ pb.Name d1) m2 = Some f ∧
    Tenant f = pb.Tenant d2 ∧ Namespace f = pb.Namespace d2 ∧
    FunctionName f = pb.Name d2 ∧
    ParseServiceRequest (Some md2) w2 ty2 functionMap = Some m2.
Proof.
  intros Hty1 Hty2 Hd1 Hsrc1 Hsink1 Hd2 Hsrc2 Hsink2 Hkey.
  unfold ParseServiceRequest. simpl.
  destruct (decide (ty1 = pb.ServiceRequest_DELETE)); [done|].
  destruct (decide (ty2 = pb.ServiceRequest_DELETE)); [done|].
  rewrite Hd1, Hd2. simpl. rewrite Hsink1, Hsrc1, Hsink2, Hsrc2. simpl.
  rewrite <- Hkey. unfold WriteFunctionMap, ReadFunctionMap, DeleteFunctionMap.
  eexists _, _, _. split; [reflexivity|]. split; [reflexivity|].
  split; [apply lookup_insert_eq|]. simpl. repeat split.
  by rewrite insert_insert_eq.
Qed.

Lemma ParseServiceRequest_writes_witness :
  let src := pb.mkSourceSpec "in-.*" ["a"; "b"] in
  let d := pb.mkFunctionDetails "t" "ns" "f" "log" true 2 (Some src)
             (Some (pb.mkSinkSpec "out")) in
  let md := pb.mkFunctionMetaData (Some d) in
  pb.ServiceRequest_OTHER 0 ≠ pb.ServiceRequest_DELETE ∧
  ∃ functionMap' f,
    logclient.ParseServiceRequest (Some md) "worker-1" (pb.ServiceRequest_OTHER 0)
      (logclient.MadeMap ∅) = Some (logclient.MadeMap functionMap') ∧
    logclient.ReadFunctionMap "tnsf" (logclient.MadeMap functionMap') = Some f ∧
    FunctionWorkerID f = "worker-1" ∧
    InputTopics f = ["a"; "b"; "in-.*"].
Proof.
  intros src d md.
  assert (Hty : pb.ServiceRequest_OTHER 0 ≠ pb.ServiceRequest_DELETE) by discriminate.
  split; [exact Hty|].
  destruct (ParseServiceRequest_writes md d src (pb.mkSinkSpec "out") "worker-1"
              (pb.ServiceRequest_OTHER 0) ∅ Hty eq_refl eq_refl eq_refl)
    as (_ & m' & f & Hp & Hr & _ & _ & _ & _ & Hw & _ & _ & Hin).
  exists m', f. repeat split; assumption.
Defined.

Lemma ParseServiceRequest_key_collision_witness :
  let details t ns n := pb.mkFunctionDetails t ns n "" false 1
                          (Some (pb.mkSourceSpec "" [])) (Some (pb.mkSinkSpec "")) in
  let md1 := pb.mkFunctionMetaData (Some (details "ab" "c" "d")) in
  let md2 := pb.mkFunctionMetaData (Some (details "a" "bc" "d")) in
  "ab" +:+ "c" +:+ "d" = "a" +:+ "bc" +:+ "d" ∧
  ∃ m1 m2 f,
    ParseServiceRequest (Some md1) "w1" (pb.ServiceRequest_OTHER 0) ∅ = Some m1 ∧
    ParseServiceRequest (Some md2) "w2" (pb.ServiceRequest_OTHER 0) m1 = Some m2 ∧
    ReadFunctionMap "abcd" m2 = Some f ∧ Tenant f = "a".
Proof.
  intros details md1 md2.
  assert (Hty : pb.ServiceRequest_OTHER 0 ≠ pb.ServiceRequest_DELETE) by discriminate.
  split; [reflexivity|].
  destruct (ParseServiceRequest_key_collision
              md1 (details "ab" "c" "d") (pb.mkSourceSpec "" []) (pb.mkSinkSpec "")
              md2 (details "a" "bc" "d") (pb.mkSourceSpec "" []) (pb.mkSinkSpec "")
              "w1" "w2" (pb.ServiceRequest_OTHER 0) (pb.ServiceRequest_OTHER 0) ∅
              Hty Hty eq_refl eq_refl eq_refl eq_refl eq_refl eq_refl eq_refl)
    as (m1 & m2 & f & H1 & H2 & Hr & Ht & _).
  exists m1, m2, f. repeat split; assumption.
Defined.

(** * The metadata reader *)

Lemma applyWrites_empty_lookup {V : Type} (ws : list (string * option V)) k v :
  applyWrites ws ∅ !! k = Some v → (k, Some v) ∈ ws.
Proof.
  induction ws as [|w ws IH] using rev_ind.
  - unfold applyWrites. simpl. by rewrite lookup_empty.
  - rewrite applyWrites_snoc. destruct (decide (w.1 = k)) as [<-|Hne].
    + rewrite applyWrite_lookup_eq. intros Hw. apply elem_of_app. right.
      apply list_elem_of_singleton. destruct w as [k' o]. simpl in *. by subst.
    + rewrite applyWrite_lookup_ne by done. intros H.
      apply elem_of_app. left. by apply IH.
Qed.

Lemma metadataWrites_elem events w :
  w ∈ metadataWrites events →
  ∃ sr err, MetadataMessage sr err ∈ events ∧ metadataWrite sr = Some w.
Proof.
  induction events as [|[e|sr err] rest IH]; simpl.
  - by intros ?%elem_of_nil.
  - by intros ?%elem_of_nil.
  - destruct (metadataWrite sr) as [w'|] eqn:E; [|by intros ?%elem_of_nil].
    intros [->|Hin]%elem_of_cons.
    + exists sr, err. split; [apply list_elem_of_here|done].
    + destruct (IH Hin) as (sr' & err' & Hin' & Hw).
      exists sr', err'. split; [by apply list_elem_of_further|done].
Qed.

(** X18: whatever the function map held before, after a run of
    [ReaderLoop] every function in it was written by a message of this run
    (a request that, read over an empty map, binds that key to that
    function), and the run had a client and a reader: functions known
    before the run are forgotten unless the topic delivers them again. *)
Theorem ReaderLoop_holds_only_this_run newClientErr createReaderErr events
    (functionMap : gmap string FunctionType) k f :
  ReadFunctionMap k (fst (ReaderLoop newClientErr createReaderErr events functionMap))
    = Some f →
  newClientErr = None ∧ createReaderErr = None ∧
  ∃ sr err,
    MetadataMessage sr err ∈ events ∧
    ReadFunctionMap k <$>
      ParseServiceRequest (pb.GetFunctionMetaData sr) (pb.GetWorkerId sr)
        (pb.GetServiceRequestType sr) ∅
    = Some (Some f).
Proof.
  unfold ReaderLoop, ReadFunctionMap.
  destruct newClientErr as [e|]; [cbn [fst]; by rewrite lookup_empty|].
  destruct createReaderErr as [e|]; [cbn [fst]; by rewrite lookup_empty|].
  rewrite readerBody_writes. intros H%applyWrites_empty_lookup.
  split; [done|]. split; [done|].
  destruct (metadataWrites_elem _ _ H) as (sr & err & Hin & Hw).
  exists sr, err. split; [exact Hin|].
  unfold metadataWrite in Hw.
  destruct (ParseServiceRequest _ _ _ ∅) as [m|]; simpl in *; [|done].
  by injection Hw as <- <-.
Qed.

Lemma ReaderLoop_holds_only_this_run_witness :
  let d := pb.mkFunctionDetails "t" "ns" "f" "" false 1
             (Some (pb.mkSourceSpec "" [])) (Some (pb.mkSinkSpec "")) in
  let sr := pb.mkServiceRequest (Some (pb.mkFunctionMetaData (Some d))) "w"
              (pb.ServiceRequest_OTHER 0) in
  ∃ f,
    ReadFunctionMap "tnsf" (fst (ReaderLoop None None [MetadataMessage sr None] ∅))
      = Some f ∧
    MetadataMessage sr None ∈ [MetadataMessage sr None].
Proof.
  intros d sr.
  assert (H : ∃ f, ReadFunctionMap "tnsf"
                     (fst (ReaderLoop None None [MetadataMessage sr None] ∅)) = Some f).
  { simpl. unfold WriteFunctionMap, ReadFunctionMap. rewrite lookup_insert_eq. eauto. }
  destruct H as [f Hf]. exists f. split; [exact Hf|].
  destruct (ReaderLoop_holds_only_this_run None None [MetadataMessage sr None] ∅
              "tnsf" f Hf) as (_ & _ & sr' & err' & Hin & _).
  apply list_elem_of_singleton in Hin. rewrite <- Hin. apply list_elem_of_here.
Defined.

(** X19: a message whose request makes [ParseServiceRequest] panic ends the
    run of [ReaderLoop] in a panic, with the map as the messages before it
    left it; nothing that follows is applied. *)
Theorem ReaderLoop_stops_at_panic pre sr err post
    (functionMap : gmap string FunctionType) :
  Forall (λ ev, ∃ sr' err', ev = MetadataMessage sr' err' ∧ is_Some (metadataWrite sr'))
    pre →
  metadataWrite sr = None →
  ReaderLoop None None (pre ++ MetadataMessage sr err :: post) functionMap
  = (fst (ReaderLoop None None pre functionMap), ReaderPanicked).
Proof.
  intros Hpre Hsr. unfold ReaderLoop.
  generalize (∅ : gmap string FunctionType).
  induction Hpre as [|ev pre (sr' & err' & -> & [w Hw]) _ IH]; intros m; simpl.
  - rewrite ParseServiceRequest_write, Hsr. reflexivity.
  - rewrite ParseServiceRequest_write, Hw. simpl. apply IH.
Qed.

Lemma ReaderLoop_stops_at_panic_witness :
  let d := pb.mkFunctionDetails "t" "ns" "f" "" false 1
             (Some (pb.mkSourceSpec "" [])) (Some (pb.mkSinkSpec "")) in
  let good := pb.mkServiceRequest (Some (pb.mkFunctionMetaData (Some d))) "w"
                (pb.ServiceRequest_OTHER 0) in
  let bad := pb.mkServiceRequest None "" (pb.ServiceRequest_OTHER 0) in
  metadataWrite bad = None ∧
  snd (ReaderLoop None None
         ([MetadataMessage good None] ++ MetadataMessage bad None ::
          [MetadataMessage good None]) ∅) = ReaderPanicked.
Proof.
  intros d good bad. split; [reflexivity|].
  rewrite (ReaderLoop_stops_at_panic [MetadataMessage good None] bad None
             [MetadataMessage good None] ∅).
  - reflexivity.
  - constructor; [|constructor]. exists good, None. split; [reflexivity|].
    simpl. eauto.
  - reflexivity.
Defined.

(** * Function logs *)

Section FunctionLogFacts.

Variable TrimSpace : string → string.
Variable LogServerPort : string.
Variable FunctionLogPath : string → string → string → Z → string.
Variable Dial : string → option error.
Variable Read : string → logstream.ReadRequest → logstream.ReadResponse + error.

Local Abbreviation GetLog :=
  (GetFunctionLog TrimSpace LogServerPort FunctionLogPath Dial Read).

(** X20: the outcome of [GetFunctionLog] depends on the function found only
    through its tenant, namespace and name: the worker the function is
    assigned to plays no part, the address dialled being
    [logstream.LogServerPort] for every function. *)
Theorem GetFunctionLog_ignores_worker functionName rd
    (m m' : gmap string FunctionType) f f' :
  ReadFunctionMap functionName m = Some f →
  ReadFunctionMap functionName m' = Some f' →
  Tenant f = Tenant f' → Namespace f = Namespace f' →
  FunctionName f = FunctionName f' →
  GetLog functionName rd m = GetLog functionName rd m'.
Proof.
  intros Hf Hf' Ht Hn Hfn. unfold GetFunctionLog.
  by rewrite Hf, Hf', Ht, Hn, Hfn.
Qed.

(** X21: [GetFunctionLog] returns an error in two cases only, each with the
    zero response: the function is not in the map ("not found", nothing is
    dialled), or the dial of [logstream.LogServerPort] fails.  A failed
    read is not returned: the process exits. *)
Theorem GetFunctionLog_errors functionName rd (m : gmap string FunctionType) :
  (∀ resp e,
     GetLog functionName rd m = Returned (resp, Some e) →
     resp = mkFunctionLogResponse "" 0 0 ∧
     ((ReadFunctionMap functionName m = None ∧ e = "not found") ∨
      (is_Some (ReadFunctionMap functionName m) ∧ Dial LogServerPort = Some e))) ∧
  (ReadFunctionMap functionName m = None →
   GetLog functionName rd m = Returned (mkFunctionLogResponse "" 0 0, Some "not found")) ∧
  (GetLog functionName rd m = ProcessExited →
   ∃ f req e, ReadFunctionMap functionName m = Some f ∧
              Dial LogServerPort = None ∧
              logstream.Bytes req = 500 ∧
              Read LogServerPort req = inr e).
Proof.
  unfold GetFunctionLog.
  destruct (ReadFunctionMap functionName m) as [f|] eqn:Ef.
  - destruct (Dial LogServerPort) as [de|] eqn:Ed.
    + split; [|split; [done|done]].
      intros resp e [= <- <-]. split; [done|]. right. eauto.
    + match goal with
      | |- context [Read LogServerPort ?r] =>
          set (req := r); destruct (Read LogServerPort req) as [res|re] eqn:Er
      end.
      * split; [done|]. split; done.
      * split; [done|]. split; [done|]. intros _. exists f, req, re. eauto.
  - split; [|split; [done|done]].
    intros resp e [= <- <-]. split; [done|]. left. eauto.
Qed.

End FunctionLogFacts.

Lemma GetFunctionLog_ignores_worker_witness :
  let f w := mkFunctionType "t" "ns" "f" w [] "" "" "" false 1 in
  let dial (a : string) : option error := None in
  let read (a : string) (r : logstream.ReadRequest)
    : logstream.ReadResponse + error :=
    inl (logstream.mkReadResponse (a +:+ logstream.File r) 0 0) in
  let path (t n fn : string) (i : Z) := t +:+ "/" +:+ n +:+ "/" +:+ fn in
  GetFunctionLog (λ x, x) ":4040" path dial read "tnsf" "forward"
    {["tnsf" := f "worker-1:"]}
  = GetFunctionLog (λ x, x) ":4040" path dial read "tnsf" "forward"
      {["tnsf" := f "worker-2:"]} ∧
  GetFunctionLog (λ x, x) ":4040" path dial read "tnsf" "forward"
    {["tnsf" := f "worker-1:"]}
  = Returned (mkFunctionLogResponse ":4040t/ns/f" 0 0, None).
Proof.
  intros f dial read path. split.
  - apply (GetFunctionLog_ignores_worker (λ x, x) ":4040" path dial read
             "tnsf" "forward" {["tnsf" := f "worker-1:"]} {["tnsf" := f "worker-2:"]}
             (f "worker-1:") (f "worker-2:"));
      solve [apply lookup_singleton_eq | reflexivity].
  - unfold GetFunctionLog, ReadFunctionMap. rewrite lookup_singleton_eq. reflexivity.
Defined.

(** * The authentication middleware *)

Section MiddlewareFacts.

Variable CanonicalMIMEHeaderKey : string → string.
Variable TrimSpace : string → string.
Variable Replace : string → string → string → Z → string.
Variable injectedSubs : string.
Variable DummySuperRole : string.
Variable SuperRoles : list string.
Variable StrContains : list string → string → bool.
Variable VerifySubject : string → string → bool.
Variable IsPulsarJWTEnabled : bool.
Variable GetTokenSubject : string → string * option error.

Local Abbreviation token := (tokenStr CanonicalMIMEHeaderKey TrimSpace Replace).
Local Abbreviation withSubjects := (setSubjects CanonicalMIMEHeaderKey injectedSubs).
Local Abbreviation VerifyJWT :=
  (AuthVerifyJWT CanonicalMIMEHeaderKey TrimSpace Replace injectedSubs
     DummySuperRole IsPulsarJWTEnabled GetTokenSubject).
Local Abbreviation VerifyTenantJWT :=
  (AuthVerifyTenantJWT CanonicalMIMEHeaderKey TrimSpace Replace injectedSubs
     DummySuperRole VerifySubject IsPulsarJWTEnabled GetTokenSubject).
Local Abbreviation SuperRole :=
  (SuperRoleRequired CanonicalMIMEHeaderKey TrimSpace Replace injectedSubs
     DummySuperRole SuperRoles StrContains IsPulsarJWTEnabled GetTokenSubject).

Lemma Header_Get_Set key value h :
  Header_Get CanonicalMIMEHeaderKey key (Header_Set CanonicalMIMEHeaderKey key value h)
  = value.
Proof. unfold Header_Get, Header_Set. by rewrite lookup_insert_eq. Qed.

(** X22: with JWT enabled, [AuthVerifyTenantJWT] calls the next handler
    exactly when the token yields subjects without error, the route has a
    "tenant" variable and [VerifySubject] accepts that tenant for those
    subjects; the request passed on then carries those subjects.  In every
    other case, a route without a tenant variable included, the answer is
    401. *)
Theorem AuthVerifyTenantJWT_gate r :
  IsPulsarJWTEnabled = true →
  (∀ r', VerifyTenantJWT r = ServeNext r' ↔
         ∃ subjects tenantName,
           GetTokenSubject (token r) = (subjects, None) ∧
           Vars r !! "tenant" = Some tenantName ∧
           VerifySubject tenantName subjects = true ∧
           r' = withSubjects subjects r) ∧
  (∀ body code, VerifyTenantJWT r = HttpError body code → code = StatusUnauthorized).
Proof.
  intros Hen. unfold AuthVerifyTenantJWT. rewrite Hen. simpl.
  destruct (GetTokenSubject (token r)) as [subjects [e|]].
  - split; [|by intros ?? [= _ <-]].
    intros r'. split; [done|]. by intros (? & ? & [= _ ?] & _).
  - destruct (Vars r !! "tenant") as [tenantName|] eqn:Ev.
    + destruct (VerifySubject tenantName subjects) eqn:Hv.
      * split; [|done]. intros r'. split.
        -- intros [= <-]. exists subjects, tenantName. eauto.
        -- intros (? & ? & [= <-] & [= <-] & _ & ->). done.
      * split; [|by intros ?? [= _ <-]]. intros r'. split; [done|].
        intros (? & ? & [= <-] & [= <-] & Hv' & _). congruence.
    + split; [|by intros ?? [= _ <-]]. intros r'. split; [done|].
      by intros (? & ? & _ & ? & _).
Qed.

(** X23: whenever [AuthVerifyJWT] or [AuthVerifyTenantJWT] calls the next
    handler, the injected-subjects header of the request passed on is the
    subjects of the token, or the dummy super role when JWT is disabled,
    whatever that header held in the incoming request. *)
Theorem injected_subjects_are_set r r' :
  VerifyJWT r = ServeNext r' ∨ VerifyTenantJWT r = ServeNext r' →
  Header_Get CanonicalMIMEHeaderKey injectedSubs (Header r')
  = if IsPulsarJWTEnabled then fst (GetTokenSubject (token r)) else DummySuperRole.
Proof.
  unfold AuthVerifyJWT, AuthVerifyTenantJWT.
  destruct IsPulsarJWTEnabled; simpl.
  - destruct (GetTokenSubject (token r)) as [subjects [e|]]; simpl.
    + by intros [|].
    + destruct (Vars r !! "tenant") as [tenantName|];
        [destruct (VerifySubject tenantName subjects)|];
        intros [H|H]; try done; injection H as <-; apply Header_Get_Set.
  - intros [[= <-]|[= <-]]; apply Header_Get_Set.
Qed.

(** X24: with JWT enabled, [SuperRoleRequired] calls the next handler
    exactly when the token yields without error a subject that
    [util.StrContains] finds in the super roles, and it passes the request
    on as it came: the injected-subjects header is not set. *)
Theorem SuperRoleRequired_gate r :
  IsPulsarJWTEnabled = true →
  ∀ r', SuperRoleRequired CanonicalMIMEHeaderKey TrimSpace Replace injectedSubs
          DummySuperRole SuperRoles StrContains IsPulsarJWTEnabled GetTokenSubject r
        = ServeNext r' ↔
        r' = r ∧
        ∃ subject, GetTokenSubject (token r) = (subject, None) ∧
                   StrContains SuperRoles subject = true.
Proof.
  intros Hen r'. unfold SuperRoleRequired. rewrite Hen. simpl.
  destruct (GetTokenSubject (token r)) as [subject [e|]].
  - split; [done|]. by intros (_ & ? & [= _ ?] & _).
  - destruct (StrContains SuperRoles subject) eqn:Hc.
    + split; [intros [= <-]; eauto|]. by intros (-> & _).
    + split; [done|]. intros (_ & ? & [= <-] & ?). congruence.
Qed.

(** X25: with JWT disabled, the three JWT handlers call the next handler
    for every request, whatever its token and route, with the dummy super
    role as injected subjects. *)
Theorem jwt_disabled_serves_all r :
  IsPulsarJWTEnabled = false →
  AuthVerifyJWT CanonicalMIMEHeaderKey TrimSpace Replace injectedSubs
    DummySuperRole IsPulsarJWTEnabled GetTokenSubject r
  = ServeNext (withSubjects DummySuperRole r) ∧
  AuthVerifyTenantJWT CanonicalMIMEHeaderKey TrimSpace Replace injectedSubs
    DummySuperRole VerifySubject IsPulsarJWTEnabled GetTokenSubject r
  = ServeNext (withSubjects DummySuperRole r) ∧
  SuperRoleRequired CanonicalMIMEHeaderKey TrimSpace Replace injectedSubs
    DummySuperRole SuperRoles StrContains IsPulsarJWTEnabled GetTokenSubject r
  = ServeNext (withSubjects DummySuperRole r).
Proof.
  intros Hen. unfold AuthVerifyJWT, AuthVerifyTenantJWT, SuperRoleRequired.
  by rewrite Hen.
Qed.

End MiddlewareFacts.

Lemma AuthVerifyTenantJWT_gate_witness :
  let subjectOf (tok : string) : string * option error :=
    if decide (tok = "good") then ("acme-admin", None) else ("", Some "invalid token") in
  let verify (tenant subjects : string) : bool :=
    bool_decide (subjects = tenant +:+ "-admin") in
  let r tok tenant :=
    {| Header := {["Authorization" := [tok]; "Injected" := ["forged"]]};
       Vars := {["tenant" := tenant]} |} in
  let handler :=
    AuthVerifyTenantJWT (λ k, k) (λ x, x) (λ x _ _ _, x) "Injected" "superuser"
      verify true subjectOf in
  true = true ∧
  handler (r "good" "acme")
    = ServeNext (setSubjects (λ k, k) "Injected" "acme-admin" (r "good" "acme")) ∧
  (∀ body code, handler (r "good" "other") = HttpError body code →
                code = StatusUnauthorized) ∧
  handler (r "good" "other") = HttpError "Unauthorized" StatusUnauthorized.
Proof.
  intros subjectOf verify r handler. split; [reflexivity|].
  split; [|split].
  - apply (proj1 (AuthVerifyTenantJWT_gate (λ k, k) (λ x, x) (λ x _ _ _, x)
                    "Injected" "superuser" verify true subjectOf
                    (r "good" "acme") eq_refl)).
    exists "acme-admin", "acme". by repeat split.
  - apply (proj2 (AuthVerifyTenantJWT_gate (λ k, k) (λ x, x) (λ x _ _ _, x)
                    "Injected" "superuser" verify true subjectOf
                    (r "good" "other") eq_refl)).
  - unfold handler, AuthVerifyTenantJWT. simpl.
    by rewrite lookup_singleton_eq.
Defined.

Lemma injected_subjects_are_set_witness :
  let subjectOf (tok : string) : string * option error := ("alice", None) in
  let r := {| Header := {["Injected" := ["forged"]]}; Vars := ∅ |} in
  AuthVerifyJWT (λ k, k) (λ x, x) (λ x _ _ _, x) "Injected" "superuser" true subjectOf r
    = ServeNext (setSubjects (λ k, k) "Injected" "alice" r) ∧
  Header_Get (λ k, k) "Injected" (Header r) = "forged" ∧
  Header_Get (λ k, k) "Injected"
    (Header (setSubjects (λ k, k) "Injected" "alice" r)) = "alice".
Proof.
  intros subjectOf r.
  assert (H : AuthVerifyJWT (λ k, k) (λ x, x) (λ x _ _ _, x) "Injected" "superuser"
                true subjectOf r
              = ServeNext (setSubjects (λ k, k) "Injected" "alice" r)) by reflexivity.
  split; [exact H|]. split.
  - unfold Header_Get. simpl. by rewrite lookup_singleton_eq.
  - exact (injected_subjects_are_set (λ k, k) (λ x, x) (λ x _ _ _, x) "Injected"
             "superuser" (λ _ _, false) true subjectOf r _ (or_introl H)).
Defined.

Lemma SuperRoleRequired_gate_witness :
  let subjectOf (tok : string) : string * option error := ("root", None) in
  let contains (l : list string) (x : string) : bool := bool_decide (x ∈ l) in
  let r := {| Header := {["Injected" := ["forged"]]}; Vars := ∅ |} in
  true = true ∧
  SuperRoleRequired (λ k, k) (λ x, x) (λ x _ _ _, x) "Injected" "superuser"
    ["root"] contains true subjectOf r = ServeNext r ∧
  Header_Get (λ k, k) "Injected" (Header r) = "forged".
Proof.
  intros subjectOf contains r. split; [reflexivity|]. split.
  - apply (SuperRoleRequired_gate (λ k, k) (λ x, x) (λ x _ _ _, x) "Injected"
             "superuser" ["root"] contains true subjectOf r eq_refl r).
    split; [reflexivity|]. exists "root". split; reflexivity.
  - unfold Header_Get. simpl. by rewrite lookup_singleton_eq.
Defined.

Lemma jwt_disabled_serves_all_witness :
  let subjectOf (tok : string) : string * option error := ("", Some "invalid token") in
  let r := {| Header := ∅; Vars := ∅ |} in
  false = false ∧
  SuperRoleRequired (λ k, k) (λ x, x) (λ x _ _ _, x) "Injected" "superuser"
    [] (λ _ _, false) false subjectOf r
  = ServeNext (setSubjects (λ k, k) "Injected" "superuser" r).
Proof.
  intros subjectOf r. split; [reflexivity|].
  exact (proj2 (proj2 (jwt_disabled_serves_all (λ k, k) (λ x, x) (λ x _ _ _, x)
                         "Injected" "superuser" [] (λ _ _, false) (λ _ _, false)
                         false subjectOf r eq_refl))).
Defined.

(** * [Setup] *)

Lemma AssignString_default a b : b ≠ "" → AssignString [a; b] ≠ "".
Proof. intros Hb. rewrite AssignString_pair. by destruct (decide (a = "")). Qed.

(** X26: [Setup] starts the listener exactly when it returns no error; it
    never hands [pulsar.NewClient] a pulsar+ssl URL without a trust store
    path (with the trust store missing it returns an error before any
    client is made); the options carry a token exactly when the configured
    token is not empty; and the topic name it stores is never empty. *)
Theorem Setup_run_spec cfg newClientErr :
  let run := Setup_run cfg newClientErr in
  (listenerStarted run = true ↔ setupError run = None) ∧
  (∀ opt, newClientCall run = Some opt →
     URL opt = PulsarURL cfg ∧
     (String.prefix "pulsar+ssl://" (URL opt) = true →
      TLSTrustCertsFilePath opt = TrustStore cfg ∧ TLSTrustCertsFilePath opt ≠ "") ∧
     (Authentication opt = None ↔ PulsarToken cfg = "") ∧
     (∀ tok, Authentication opt = Some tok → tok = PulsarToken cfg)) ∧
  (String.prefix "pulsar+ssl://" (PulsarURL cfg) = true → TrustStore cfg = "" →
   newClientCall run = None ∧ is_Some (setupError run)) ∧
  (newClientCall run = None → is_Some (setupError run)) ∧
  topicName run ≠ "".
Proof.
  cbv zeta. unfold Setup_run.
  assert (Htopic : AssignString [TenantManagmentTopic cfg;
                     "persistent://public/default/tenants-management"] ≠ "")
    by (by apply AssignString_default).
  assert (Hauth : ∀ o : option string,
            o = (if decide (PulsarToken cfg ≠ "") then Some (PulsarToken cfg) else None) →
            (o = None ↔ PulsarToken cfg = "") ∧
            (∀ tok, o = Some tok → tok = PulsarToken cfg)).
  { intros o ->. destruct (decide (PulsarToken cfg ≠ "")) as [Hne|Heq].
    - split; [split; [done|by intros ?]|]. by intros tok [= <-].
    - apply dec_stable in Heq. split; [by split|done]. }
  assert (Hcall : ∀ trust,
            (String.prefix "pulsar+ssl://" (PulsarURL cfg) = true →
             trust = TrustStore cfg ∧ trust ≠ "") →
            ∀ opt,
              Some {| URL := PulsarURL cfg; OperationTimeout := 30 * Second;
                      ConnectionTimeout := 30 * Second;
                      Authentication :=
                        if decide (PulsarToken cfg ≠ "")
                        then Some (PulsarToken cfg) else None;
                      TLSTrustCertsFilePath := trust |} = Some opt →
              URL opt = PulsarURL cfg ∧
              (String.prefix "pulsar+ssl://" (URL opt) = true →
               TLSTrustCertsFilePath opt = TrustStore cfg ∧
               TLSTrustCertsFilePath opt ≠ "") ∧
              (Authentication opt = None ↔ PulsarToken cfg = "") ∧
              (∀ tok, Authentication opt = Some tok → tok = PulsarToken cfg)).
  { intros trust Htrust opt [= <-]. cbn.
    split; [done|]. split; [exact Htrust|]. by apply Hauth. }
  destruct (String.prefix "pulsar+ssl://" (PulsarURL cfg)) eqn:Hp.
  - destruct (decide (TrustStore cfg = "")) as [Hts|Hts].
    + cbn. split; [by split|]. split; [done|]. split; [by eauto|].
      split; [by eauto|done].
    + destruct newClientErr as [e|]; cbn.
      * split; [by split|]. split; [apply Hcall; by split|].
        split; [done|]. split; [done|done].
      * split; [by split|]. split; [apply Hcall; by split|].
        split; [done|]. split; [done|done].
  - destruct newClientErr as [e|]; cbn.
    + split; [by split|]. split; [apply Hcall; intros; congruence|].
      split; [done|]. split; [done|done].
    + split; [by split|]. split; [apply Hcall; intros; congruence|].
      split; [done|]. split; [done|done].
Qed.
